(** * Ping sweep: address range resolution and bounded scan scheduling

    A shallow embedding of [Network Tools/Ping Sweep/ping-sweep.py].

    The script leans on three pieces of the Python standard library:
    [ipaddress] (address and network objects), [subprocess.run] (the
    external [ping] command) and [concurrent.futures.ThreadPoolExecutor].
    The numeric part of [ipaddress] (masks, [hosts()], comparisons) and the
    scheduling discipline of the thread pool are modelled here from the
    library's code; the reading of address texts, the rendering of
    addresses and the outcome of the [ping] command are taken as
    parameters (class [Host]).

    Texts are [string]s whose characters stand for code points below 256.
    A Python call that may raise is a function into [outcome]. *)

From Stdlib Require Import ZArith List String Ascii Bool Lia.
From Stdlib Require Import Permutation Sorted DecimalString HexadecimalString.
Import ListNotations.

Open Scope string_scope.
Open Scope list_scope.
Open Scope Z_scope.

(** ** Exceptions *)

(** The result of a Python call: a value, or an exception (every exception
    met in this program derives from [Exception]). *)
Inductive outcome (A : Type) : Type :=
| Return (a : A)
| Raise.

Arguments Return {A} a.
Arguments Raise {A}.

Definition bind {A B : Type} (m : outcome A) (k : A -> outcome B) : outcome B :=
  match m with
  | Return a => k a
  | Raise => Raise
  end.

Notation "x <- m ;; k" := (bind m (fun x => k))
  (at level 61, m at next level, right associativity).

(** A comprehension [[x for x in l if p(x)]] whose condition may raise:
    the first exception aborts the whole comprehension. *)
Fixpoint filter_raising {A : Type} (p : A -> outcome bool) (l : list A)
  : outcome (list A) :=
  match l with
  | [] => Return []
  | x :: l' =>
      b <- p x ;;
      r <- filter_raising p l' ;;
      Return (if b then x :: r else r)
  end.

(** [range(lo, hi)] *)
Definition range (lo hi : Z) : list Z :=
  map (fun i => lo + Z.of_nat i) (seq 0 (Z.to_nat (hi - lo))).

(** [str(n)] for an [int] *)
Definition str_int (n : Z) : string :=
  DecimalString.NilZero.string_of_int (Z.to_int n).

(** ** The [ipaddress] module: numeric part *)

Module Ipaddress.

Inductive ip_version : Type := IPv4 | IPv6.

Definition version_eqb (v w : ip_version) : bool :=
  match v, w with
  | IPv4, IPv4 | IPv6, IPv6 => true
  | _, _ => false
  end.

Definition _max_prefixlen (v : ip_version) : Z :=
  match v with IPv4 => 32 | IPv6 => 128 end.

Definition _ALL_ONES (v : ip_version) : Z := 2 ^ _max_prefixlen v - 1.

(** An [IPv4Address] or [IPv6Address] object. Only IPv6 addresses carry a
    scope id ([fe80::1%eth0]). *)
Record address : Type := {
  _version : ip_version;
  _ip : Z;
  _scope_id : option string
}.

(** [IPv4Address(x)] / [IPv6Address(x)] for an integer [x]. The
    constructor refuses an [x] outside the version's range; the
    addresses that [hosts] builds for a network read from a text are
    always inside it. *)
Definition _address_class (v : ip_version) (x : Z) : address :=
  {| _version := v; _ip := x; _scope_id := None |}.

Definition scope_eqb (s t : option string) : bool :=
  match s, t with
  | None, None => true
  | Some a, Some b => String.eqb a b
  | _, _ => false
  end.

(** [__eq__]: [_BaseAddress.__eq__], refined by [IPv6Address.__eq__] with
    the comparison of the scope ids. *)
Definition address_eq (a b : address) : bool :=
  ((_ip a =? _ip b) && version_eqb (_version a) (_version b))
  && match _version a with
     | IPv4 => true
     | IPv6 => scope_eqb (_scope_id a) (_scope_id b)
     end.

(** [_BaseAddress.__lt__]: a [TypeError] across versions. *)
Definition address_lt (a b : address) : outcome bool :=
  if negb (version_eqb (_version a) (_version b)) then Raise
  else if negb (_ip a =? _ip b) then Return (_ip a <? _ip b)
  else Return false.

(** [__le__], as [functools.total_ordering] derives it from [__lt__] and
    [__eq__]. *)
Definition address_le (a b : address) : outcome bool :=
  op_result <- address_lt a b ;;
  Return (op_result || address_eq a b).

(** An [IPv4Network] or [IPv6Network] object built with [strict=False].
    [addr] is the address given to the constructor, which the [hosts]
    closure of a single-address network keeps. *)
Record network : Type := {
  network_address : address;
  _prefixlen : Z;
  addr : address
}.

Definition net_version (n : network) : ip_version := _version (network_address n).

Definition _ip_int_from_prefix (v : ip_version) (prefixlen : Z) : Z :=
  Z.lxor (_ALL_ONES v) (Z.shiftr (_ALL_ONES v) prefixlen).

Definition netmask (n : network) : Z :=
  _ip_int_from_prefix (net_version n) (_prefixlen n).

Definition hostmask (n : network) : Z :=
  Z.lxor (netmask n) (_ALL_ONES (net_version n)).

Definition broadcast_address (n : network) : Z :=
  Z.lor (_ip (network_address n)) (hostmask n).

(** The network constructor after the text has been split and read:
    [a] is the address part, [prefixlen] the prefix length; host bits are
    masked off ([strict=False]). *)
Definition make_network (a : address) (prefixlen : Z) : network :=
  let mask := _ip_int_from_prefix (_version a) prefixlen in
  let packed := _ip a in
  {| network_address :=
       if negb (Z.land packed mask =? packed)
       then _address_class (_version a) (Z.land packed mask)
       else a;
     _prefixlen := prefixlen;
     addr := a |}.

(** [_BaseNetwork.__iter__] *)
Definition __iter__ (n : network) : list address :=
  map (_address_class (net_version n))
      (range (_ip (network_address n)) (broadcast_address n + 1)).

(** [hosts()]: the method of the version's class, replaced in the
    constructor for the two shortest networks. *)
Definition hosts (n : network) : list address :=
  if _prefixlen n =? _max_prefixlen (net_version n) - 1 then __iter__ n
  else if _prefixlen n =? _max_prefixlen (net_version n) then [addr n]
  else
    match net_version n with
    | IPv4 =>
        map (_address_class IPv4)
            (range (_ip (network_address n) + 1) (broadcast_address n))
    | IPv6 =>
        map (_address_class IPv6)
            (range (_ip (network_address n) + 1) (broadcast_address n + 1))
    end.

End Ipaddress.

Import Ipaddress.

(** ** The host environment *)

(** The completed [ping] process is seen through its return code. *)
Class Host : Type := {
  (** [ipaddress.ip_address(text)]: the address read from a text, [None]
      where the library raises [ValueError]. *)
  parse_address : string -> option address;
  (** the address part and the prefix length that [ipaddress.ip_network]
      reads from a text, [None] where it raises [ValueError]. *)
  parse_network : string -> option (address * Z);
  (** [str(ip)] *)
  str_address : address -> string;
  (** [int(text)], [None] where it raises [ValueError]. *)
  parse_int : string -> option Z;
  (** [platform.system()] *)
  platform_system : string;
  (** [subprocess.run(argv, ...)]: the return code of the completed
      process, or an exception when the command cannot be run. *)
  subprocess_run : list string -> outcome Z
}.

(** ** Text helpers *)

Infix "+++" := String.append (at level 60, right associativity).

Definition nonempty (s : string) : bool :=
  match s with EmptyString => false | String _ _ => true end.

Definition newline : string := String (ascii_of_nat 10) EmptyString.

(** [str.isspace] on one character (code points below 256). *)
Definition isspace (c : ascii) : bool :=
  let n := N_of_ascii c in
  (((9 <=? n) && (n <=? 13)) || ((28 <=? n) && (n <=? 32))
   || (n =? 133) || (n =? 160))%N.

Fixpoint lstrip (s : string) : string :=
  match s with
  | EmptyString => EmptyString
  | String c s' => if isspace c then lstrip s' else s
  end.

Fixpoint rstrip (s : string) : string :=
  match s with
  | EmptyString => EmptyString
  | String c s' =>
      match rstrip s' with
      | EmptyString => if isspace c then EmptyString else String c EmptyString
      | r => String c r
      end
  end.

(** [s.strip()] *)
Definition strip (s : string) : string := rstrip (lstrip s).

Definition lower_char (c : ascii) : ascii :=
  let n := N_of_ascii c in
  if (((65 <=? n) && (n <=? 90))
      || (((192 <=? n) && (n <=? 222)) && negb (n =? 215)))%N
  then ascii_of_N (n + 32)
  else c.

(** [s.lower()] *)
Fixpoint lower (s : string) : string :=
  match s with
  | EmptyString => EmptyString
  | String c s' => String (lower_char c) (lower s')
  end.

(** ** The script *)

Module PingSweep.

Definition MAX_WORKERS : nat := 50.

(** The [ValueError]s that [start_sweep] catches and shows in its
    "Invalid Input" dialog. *)
Inductive value_error : Type :=
| ValueError (message : string)
    (** raised by the script itself (line 44) *)
| NetworkValueError (address : string).
    (** raised by [ipaddress.ip_network] for this text (line 46) *)

(** Where the scan stands: in the [with] block, past it, or left by an
    exception of [future.result()]. *)
Inductive phase : Type := Sweeping | Complete | Aborted.

(** One scan: the executor, its futures and the local and shared
    variables of [start_sweep].

    - [to_submit]: the candidates the comprehension of line 59 has yet to
      submit, in order;
    - [_work_queue]: the work items queued in the executor, oldest first;
    - [in_flight]: the work items being run by a worker thread, that is
      the calls of [ping_host] in progress;
    - [_threads]: the number of worker threads started;
    - [_idle_semaphore]: the executor's count of idle workers;
    - [finished]: the outcomes of the finished futures that
      [as_completed] has yet to yield;
    - [results]: what [future.result()] gave the loop, in arrival order;
    - [responsive_hosts], [output_text], [result_list]: as in the script
      ([output_text] holds the texts inserted into the widget). *)
Record sweep_state : Type := {
  to_submit : list address;
  _work_queue : list address;
  in_flight : list address;
  _threads : nat;
  _idle_semaphore : nat;
  finished : list (outcome (string * bool));
  results : list (string * bool);
  responsive_hosts : list string;
  output_text : list string;
  result_list : list string;
  at_phase : phase
}.

(** What can happen next in a scan. *)
Inductive event : Type :=
| Submit
    (** the main thread submits the next candidate (line 59) *)
| Get
    (** a waiting worker takes the oldest queued item and calls
        [ping_host] *)
| Done (k : nat)
    (** the [k]-th call in flight returns; its future is finished *)
| Yield (k : nat)
    (** [as_completed] yields the [k]-th finished future and the loop
        body runs (lines 61-67) *)
| Exit.
    (** every future has been yielded: the [with] block ends and lines
        69-72 run *)

Fixpoint remove_nth {A : Type} (k : nat) (l : list A) : list A :=
  match l, k with
  | [], _ => []
  | _ :: l', O => l'
  | x :: l', S k' => x :: remove_nth k' l'
  end.

(** [ThreadPoolExecutor._adjust_thread_count]: the idle count and the
    number of threads after a submission. An idle worker is counted off;
    failing that a thread is started while the pool is not full. *)
Definition _adjust_thread_count (max_workers idle threads : nat) : nat * nat :=
  if (0 <? idle)%nat then (pred idle, threads)
  else if (threads <? max_workers)%nat then (idle, S threads)
  else (idle, threads).

Definition is_nil {A : Type} (l : list A) : bool :=
  match l with [] => true | _ :: _ => false end.

Definition sweeping (p : phase) : bool :=
  match p with Sweeping => true | _ => false end.

Section WithHost.

Context {host : Host}.

(** [ipaddress.ip_address(text)] *)
Definition ip_address (text : string) : outcome address :=
  match parse_address text with
  | Some a => Return a
  | None => Raise
  end.

(** [ipaddress.ip_network(text, strict=False)] *)
Definition ip_network (text : string) : outcome network :=
  match parse_network text with
  | Some (a, prefixlen) => Return (make_network a prefixlen)
  | None => Raise
  end.

(** The command line that [ping_host] runs. *)
Definition ping_command (ip : address) (count timeout : Z) : list string :=
  let system := lower platform_system in
  let count_param := if String.eqb system "windows" then "-n" else "-c" in
  let timeout_param := if String.eqb system "windows" then "-w" else "-W" in
  ["ping"; count_param; str_int count;
   timeout_param; str_int timeout; str_address ip].

Definition ping_host (ip : address) (count timeout : Z)
  : outcome (string * bool) :=
  match subprocess_run (ping_command ip count timeout) with
  | Return returncode => Return (str_address ip, returncode =? 0)
  | Raise => Return (str_address ip, false)
  end.

Definition update_output (text_widget : list string) (msg : string)
  : list string :=
  text_widget ++ [msg +++ newline].

(** The chained comparison [start <= ip <= end]. *)
Definition within (start end_ : address) (ip : address) : outcome bool :=
  b <- address_le start ip ;;
  if b then address_le ip end_ else Return false.

(** [None] is Python's [None]. *)
Definition get_ip_range (start_ip end_ip subnet : string)
  : option (list address) :=
  match
    (network <- ip_network subnet ;;
     start <- ip_address start_ip ;;
     end_ <- ip_address end_ip ;;
     filter_raising (within start end_) (hosts network))
  with
  | Return l => Some l
  | Raise => None
  end.

(** Lines 40-49 of [start_sweep]: the value of [ip_range], or the
    [ValueError] that ends the call before anything is scanned. *)
Definition ip_range (subnet start_ip end_ip : string)
  : value_error + list address :=
  if nonempty start_ip && nonempty end_ip then
    match get_ip_range start_ip end_ip subnet with
    | None | Some [] => inl (ValueError "Invalid IP range within subnet.")
    | Some l => inr l
    end
  else
    match ip_network subnet with
    | Return network => inr (hosts network)
    | Raise => inl (NetworkValueError subnet)
    end.

(** [start_sweep] up to the [with] block (lines 40-58): the error shown,
    or the scan about to submit its first candidate. *)
Definition start_sweep (subnet start_ip end_ip : string) (count timeout : Z)
    (output_text0 result_list0 : list string) : value_error + sweep_state :=
  match ip_range subnet start_ip end_ip with
  | inl e => inl e
  | inr l =>
      let o1 := update_output output_text0 ("Pinging subnet: " +++ subnet) in
      let o2 := update_output o1
                  ("Ping count: " +++ str_int count +++ ", Timeout: "
                   +++ str_int timeout +++ "ms") in
      let o3 := update_output o2
                  (if nonempty start_ip && nonempty end_ip
                   then "Range: " +++ start_ip +++ " - " +++ end_ip
                   else "Range: full subnet") in
      let o4 := update_output o3 ("Starting sweep..." +++ newline) in
      inr {| to_submit := l; _work_queue := []; in_flight := [];
             _threads := 0; _idle_semaphore := 0; finished := [];
             results := []; responsive_hosts := []; output_text := o4;
             result_list := result_list0; at_phase := Sweeping |}
  end.

(** One step of a scan over a pool of at most [max_workers] threads;
    [None] when the event cannot happen in this state. *)
Definition step (max_workers : nat) (count timeout : Z)
    (e : event) (s : sweep_state) : option sweep_state :=
  match e with
  | Submit =>
      match to_submit s with
      | ip :: rest =>
          if sweeping (at_phase s) then
            let '(sem, threads) :=
              _adjust_thread_count max_workers
                (_idle_semaphore s) (_threads s) in
            Some {| to_submit := rest;
                    _work_queue := _work_queue s ++ [ip];
                    in_flight := in_flight s;
                    _threads := threads; _idle_semaphore := sem;
                    finished := finished s; results := results s;
                    responsive_hosts := responsive_hosts s;
                    output_text := output_text s;
                    result_list := result_list s;
                    at_phase := at_phase s |}
          else None
      | [] => None
      end
  | Get =>
      match _work_queue s with
      | ip :: queue =>
          if (List.length (in_flight s) <? _threads s)%nat then
            Some {| to_submit := to_submit s;
                    _work_queue := queue;
                    in_flight := in_flight s ++ [ip];
                    _threads := _threads s;
                    _idle_semaphore := _idle_semaphore s;
                    finished := finished s; results := results s;
                    responsive_hosts := responsive_hosts s;
                    output_text := output_text s;
                    result_list := result_list s;
                    at_phase := at_phase s |}
          else None
      | [] => None
      end
  | Done k =>
      match nth_error (in_flight s) k with
      | Some ip =>
          Some {| to_submit := to_submit s;
                  _work_queue := _work_queue s;
                  in_flight := remove_nth k (in_flight s);
                  _threads := _threads s;
                  _idle_semaphore := S (_idle_semaphore s);
                  finished := finished s ++ [ping_host ip count timeout];
                  results := results s;
                  responsive_hosts := responsive_hosts s;
                  output_text := output_text s;
                  result_list := result_list s;
                  at_phase := at_phase s |}
      | None => None
      end
  | Yield k =>
      if sweeping (at_phase s) && is_nil (to_submit s) then
        match nth_error (finished s) k with
        | Some (Return (ip, is_up)) =>
            Some {| to_submit := to_submit s;
                    _work_queue := _work_queue s;
                    in_flight := in_flight s;
                    _threads := _threads s;
                    _idle_semaphore := _idle_semaphore s;
                    finished := remove_nth k (finished s);
                    results := results s ++ [(ip, is_up)];
                    responsive_hosts :=
                      if is_up then responsive_hosts s ++ [ip]
                      else responsive_hosts s;
                    output_text :=
                      if is_up
                      then update_output (output_text s) ("[+] Host Up: " +++ ip)
                      else update_output (output_text s)
                             ("[-] No Response: " +++ ip);
                    result_list := result_list s;
                    at_phase := at_phase s |}
        | Some Raise =>
            Some {| to_submit := to_submit s;
                    _work_queue := _work_queue s;
                    in_flight := in_flight s;
                    _threads := _threads s;
                    _idle_semaphore := _idle_semaphore s;
                    finished := remove_nth k (finished s);
                    results := results s;
                    responsive_hosts := responsive_hosts s;
                    output_text := output_text s;
                    result_list := result_list s;
                    at_phase := Aborted |}
        | None => None
        end
      else None
  | Exit =>
      if sweeping (at_phase s) && is_nil (to_submit s)
         && is_nil (_work_queue s) && is_nil (in_flight s)
         && is_nil (finished s)
      then
        let o1 := update_output (output_text s) (newline +++ "Sweep complete.") in
        let o2 := update_output o1
                    (str_int (Z.of_nat (List.length (responsive_hosts s)))
                     +++ " host(s) responded." +++ newline) in
        Some {| to_submit := to_submit s;
                _work_queue := _work_queue s;
                in_flight := in_flight s;
                _threads := _threads s;
                _idle_semaphore := _idle_semaphore s;
                finished := finished s;
                results := results s;
                responsive_hosts := responsive_hosts s;
                output_text := o2;
                result_list := responsive_hosts s;
                at_phase := Complete |}
      else None
  end.

(** A run: the events of a scan, taken one after the other. *)
Fixpoint run (max_workers : nat) (count timeout : Z)
    (events : list event) (s : sweep_state) : option sweep_state :=
  match events with
  | [] => Some s
  | e :: events' =>
      match step max_workers count timeout e s with
      | Some s' => run max_workers count timeout events' s'
      | None => None
      end
  end.

(** The outcome of pressing "Start Ping Sweep". *)
Inductive started : Type :=
| InputError
    (** "Ping count and timeout must be integers." *)
| Started (r : value_error + sweep_state).
    (** the thread running [start_sweep] *)

Definition threaded_sweep (subnet_entry start_ip_entry end_ip_entry
    count_entry timeout_entry : string)
    (output_text0 result_list0 : list string) : started :=
  let subnet := strip subnet_entry in
  let start_ip := strip start_ip_entry in
  let end_ip := strip end_ip_entry in
  match parse_int count_entry, parse_int timeout_entry with
  | Some count, Some timeout =>
      Started (start_sweep subnet start_ip end_ip count timeout
                 output_text0 result_list0)
  | _, _ => InputError
  end.

End WithHost.

End PingSweep.

(** ** The bookkeeping of a scan *)

Module Scan.

Import PingSweep.

Definition outcome_eq_dec (x y : outcome (string * bool)) : {x = y} + {x <> y}.
Proof.
  decide equality. decide equality; [apply bool_dec | apply string_dec].
Defined.

Section WithHost.

Context {host : Host}.

Variable max_workers : nat.
Variables count timeout : Z.

(** The candidates of the scan and the caller's list before it. *)
Variable candidates : list address.
Variable result_list0 : list string.

(** What the calls of [ping_host] for these addresses give. *)
Definition outcomes (l : list address) : list (outcome (string * bool)) :=
  map (fun ip => ping_host ip count timeout) l.

Definition occurrences (x : outcome (string * bool))
    (l : list (outcome (string * bool))) : nat :=
  count_occ outcome_eq_dec l x.

(** How often an outcome is held somewhere in the scan: still to be
    submitted, queued, in flight, finished, or handled by the loop. *)
Definition held (x : outcome (string * bool)) (s : sweep_state) : nat :=
  (occurrences x (outcomes (to_submit s))
   + occurrences x (outcomes (_work_queue s))
   + occurrences x (outcomes (in_flight s))
   + occurrences x (finished s)
   + occurrences x (map Return (results s)))%nat.

(** The states a scan passes through. *)
Record consistent (s : sweep_state) : Prop := {
  accounted : forall x, held x s = occurrences x (outcomes candidates);
  bounded : (List.length (in_flight s) <= _threads s <= max_workers)%nat;
  live : _threads s = 0%nat ->
         _idle_semaphore s = 0%nat /\ _work_queue s = [] /\ in_flight s = [];
  responsive : responsive_hosts s = map fst (filter snd (results s));
  phased : match at_phase s with
           | Sweeping => result_list s = result_list0
           | Complete =>
               result_list s = responsive_hosts s
               /\ to_submit s = [] /\ _work_queue s = []
               /\ in_flight s = [] /\ finished s = []
           | Aborted => False
           end
}.

(** The number of steps a scan has left. *)
Definition remaining (s : sweep_state) : nat :=
  (4 * List.length (to_submit s) + 3 * List.length (_work_queue s)
   + 2 * List.length (in_flight s) + List.length (finished s)
   + (if sweeping (at_phase s) then 1 else 0))%nat.

End WithHost.

End Scan.

(** ** A host for the examples

    It reads IPv4 texts of the forms [a.b.c.d] and [a.b.c.d/len] as the
    library does, it reads the IPv6 texts listed in [ipv6_texts], and it
    renders addresses of both versions as the library does. Numbers are
    read in plain decimal. The [ping] command is a parameter. *)

Module ExampleHost.

Fixpoint split (sep : ascii) (s : string) : list string :=
  match s with
  | EmptyString => [EmptyString]
  | String c s' =>
      if Ascii.eqb c sep then EmptyString :: split sep s'
      else match split sep s' with
           | w :: ws => String c w :: ws
           | [] => [String c EmptyString]
           end
  end.

Definition isdigit_char (c : ascii) : bool :=
  ((48 <=? N_of_ascii c) && (N_of_ascii c <=? 57))%N.

Fixpoint all_digits (s : string) : bool :=
  match s with
  | EmptyString => true
  | String c s' => isdigit_char c && all_digits s'
  end.

(** [s.isascii() and s.isdigit()] *)
Definition isdigit (s : string) : bool := nonempty s && all_digits s.

Fixpoint decimal (acc : Z) (s : string) : Z :=
  match s with
  | EmptyString => acc
  | String c s' => decimal (10 * acc + (Z.of_N (N_of_ascii c) - 48)) s'
  end.

Definition _parse_octet (octet_str : string) : option Z :=
  if negb (isdigit octet_str) then None
  else if (3 <? String.length octet_str)%nat then None
  else if negb (String.eqb octet_str "0") && String.prefix "0" octet_str
       then None
  else if 255 <? decimal 0 octet_str then None
  else Some (decimal 0 octet_str).

Definition ipv4_int_from_string (ip_str : string) : option Z :=
  match map _parse_octet (split "." ip_str) with
  | [Some a; Some b; Some c; Some d] =>
      Some (((a * 256 + b) * 256 + c) * 256 + d)
  | _ => None
  end.

Definition ipv4_address (text : string) : option address :=
  match ipv4_int_from_string text with
  | Some x => Some (_address_class IPv4 x)
  | None => None
  end.

Definition ipv4_prefix_from_string (prefixlen_str : string) : option Z :=
  if isdigit prefixlen_str && (decimal 0 prefixlen_str <=? 32)
  then Some (decimal 0 prefixlen_str)
  else None.

Definition ipv4_network (text : string) : option (address * Z) :=
  match split "/" text with
  | [a] =>
      match ipv4_address a with
      | Some x => Some (x, 32)
      | None => None
      end
  | [a; mask] =>
      match ipv4_address a, ipv4_prefix_from_string mask with
      | Some x, Some p => Some (x, p)
      | _, _ => None
      end
  | _ => None
  end.

(** The IPv6 texts of the examples, with the address and the prefix
    length the library reads from them. *)
Definition ipv6_texts : list (string * (address * Z)) :=
  [ ("2001:db8::/126",
     (_address_class IPv6 (Z.shiftl 0x20010db8 96), 126));
    ("2001:db8::2",
     (_address_class IPv6 (Z.shiftl 0x20010db8 96 + 2), 128));
    ("::1", (_address_class IPv6 1, 128)) ].

Fixpoint assoc {A : Type} (k : string) (l : list (string * A)) : option A :=
  match l with
  | [] => None
  | (k', v) :: l' => if String.eqb k k' then Some v else assoc k l'
  end.

Definition example_parse_address (text : string) : option address :=
  match ipv4_address text with
  | Some a => Some a
  | None =>
      match assoc text ipv6_texts with
      | Some (a, 128) => Some a
      | _ => None
      end
  end.

Definition example_parse_network (text : string) : option (address * Z) :=
  match ipv4_network text with
  | Some r => Some r
  | None => assoc text ipv6_texts
  end.

Definition ipv4_string (x : Z) : string :=
  String.concat "."
    (map (fun k => str_int (Z.land (Z.shiftr x (8 * k)) 255)) [3; 2; 1; 0]).

Definition hex (x : Z) : string :=
  HexadecimalString.NilZero.string_of_uint (N.to_hex_uint (Z.to_N x)).

(** The first longest run of zero groups, as [(start, length)];
    [run] is the run being read, [best] the longest one so far. *)
Fixpoint longest_zero_run (groups : list Z) (index : nat)
    (run best : nat * nat) : nat * nat :=
  match groups with
  | [] => best
  | g :: groups' =>
      if g =? 0 then
        let run' := (if (snd run =? 0)%nat then index else fst run,
                     S (snd run)) in
        longest_zero_run groups' (S index) run'
          (if (snd best <? snd run')%nat then run' else best)
      else longest_zero_run groups' (S index) (0%nat, 0%nat) best
  end.

Definition _compress_hextets (groups : list Z) : list string :=
  let '(start, len) := longest_zero_run groups 0 (0%nat, 0%nat) (0%nat, 0%nat) in
  let hextets := map hex groups in
  if (1 <? len)%nat then
    (if (start =? 0)%nat then [EmptyString] else [])
    ++ firstn start hextets ++ [EmptyString] ++ skipn (start + len) hextets
    ++ (if (start + len =? List.length groups)%nat then [EmptyString] else [])
  else hextets.

Definition ipv6_string (x : Z) : string :=
  String.concat ":"
    (_compress_hextets
       (map (fun k => Z.land (Z.shiftr x (16 * k)) 65535)
            [7; 6; 5; 4; 3; 2; 1; 0])).

Definition example_str_address (a : address) : string :=
  match _version a with
  | IPv4 => ipv4_string (_ip a)
  | IPv6 =>
      match _scope_id a with
      | Some scope => if nonempty scope
                      then ipv6_string (_ip a) +++ "%" +++ scope
                      else ipv6_string (_ip a)
      | None => ipv6_string (_ip a)
      end
  end.

Definition signed_decimal (s : string) : option Z :=
  match s with
  | String "-" s' => if isdigit s' then Some (- decimal 0 s') else None
  | String "+" s' => if isdigit s' then Some (decimal 0 s') else None
  | _ => if isdigit s then Some (decimal 0 s) else None
  end.

Definition example_host (system : string)
    (ping : list string -> outcome Z) : Host :=
  {| parse_address := example_parse_address;
     parse_network := example_parse_network;
     str_address := example_str_address;
     parse_int := fun text => signed_decimal (strip text);
     platform_system := system;
     subprocess_run := ping |}.

(** A [ping] that succeeds for the addresses of [up], fails for the
    others, and cannot be run at all for the addresses of [broken]. *)
Definition ping_stub (up broken : list string) (argv : list string)
  : outcome Z :=
  let target := last argv EmptyString in
  if existsb (String.eqb target) broken then Raise
  else if existsb (String.eqb target) up then Return 0
  else Return 1.

End ExampleHost.

(** ** The specification's vocabulary *)

Module Spec.

(** The number of addresses of a network. *)
Definition num_addresses (n : network) : Z :=
  2 ^ (_max_prefixlen (net_version n) - _prefixlen n).

Definition first_address (n : network) : Z := _ip (network_address n).

Definition last_address (n : network) : Z :=
  first_address n + num_addresses n - 1.

(** Every address of the network, in ascending order. *)
Definition all_addresses (n : network) : list Z :=
  range (first_address n) (first_address n + num_addresses n).

(** "Every usable host address of the network": the network and the
    broadcast address are left out when the network has more than two
    addresses. *)
Definition usable_hosts (n : network) : list Z :=
  if 2 <? num_addresses n
  then filter (fun x => negb (x =? first_address n)
                        && negb (x =? last_address n))
              (all_addresses n)
  else all_addresses n.

(** The same with the last address kept: an IPv6 network has no
    broadcast address. *)
Definition usable_hosts_ipv6 (n : network) : list Z :=
  if 2 <? num_addresses n
  then filter (fun x => negb (x =? first_address n)) (all_addresses n)
  else all_addresses n.

(** The address part and the prefix length of a well-formed network
    text. *)
Definition well_formed (a : address) (prefixlen : Z) : Prop :=
  0 <= _ip a <= _ALL_ONES (_version a)
  /\ 0 <= prefixlen <= _max_prefixlen (_version a).

(** A bound lies within the network's host range. *)
Definition in_host_range (n : network) (a : address) : bool :=
  existsb (fun h => _ip h =? _ip a) (hosts n).

(** "Ascending by numeric address value". *)
Definition by_value (a b : address) : Prop := _ip a < _ip b.

(** The one error of the bounded path. *)
Definition invalid_range : PingSweep.value_error :=
  PingSweep.ValueError "Invalid IP range within subnet.".

(** "Either bound fails to parse as an address, or start > end". *)
Definition bad_bounds {host : Host} (start_ip end_ip : string) : Prop :=
  PingSweep.ip_address start_ip = Raise
  \/ PingSweep.ip_address end_ip = Raise
  \/ exists a b, PingSweep.ip_address start_ip = Return a
                 /\ PingSweep.ip_address end_ip = Return b
                 /\ _ip b < _ip a.

(** "The interval excludes every usable host of the network". *)
Definition excludes_every_host {host : Host} (subnet : string)
    (a b : address) : Prop :=
  forall n h, PingSweep.ip_network subnet = Return n -> In h (hosts n) ->
              ~ _ip a <= _ip h <= _ip b.

End Spec.

(** ** Examples *)

Module Examples.

Import ExampleHost PingSweep.

(** A Linux machine on which [192.168.1.1] and [10.0.0.3] answer, and on
    which [ping] cannot be run for [192.168.1.2]. *)
Definition lab : Host :=
  example_host "Linux" (ping_stub ["192.168.1.1"; "10.0.0.3"] ["192.168.1.2"]).

(** Ten candidates are submitted, three are probed and reported. *)
Definition three_of_ten : list event :=
  repeat Submit 10
  ++ [Get; Get; Get; Done 0; Done 0; Done 0; Yield 0; Yield 0; Yield 0].

(** Two candidates, probed side by side and reported as they finish. *)
Definition two_hosts : list event :=
  [Submit; Submit; Get; Get; Done 1; Done 0; Yield 0; Yield 0; Exit].

(** Sixty-two candidates are submitted and fifty of them are started. *)
Definition full_pool : list event := repeat Submit 62 ++ repeat Get 50.

End Examples.

(** ** The report of a scan *)

Module Report.

Import PingSweep.

Definition is_submit (e : event) : bool :=
  match e with Submit => true | _ => false end.

Definition is_get (e : event) : bool :=
  match e with Get => true | _ => false end.

Definition is_done (e : event) : bool :=
  match e with Done _ => true | _ => false end.

Definition is_yield (e : event) : bool :=
  match e with Yield _ => true | _ => false end.

Definition is_exit (e : event) : bool :=
  match e with Exit => true | _ => false end.

Definition one_if (b : bool) : nat := if b then 1%nat else 0%nat.

(** How many events of a kind a run holds. *)
Definition count_events (kind : event -> bool) (events : list event) : nat :=
  List.length (filter kind events).

Definition complete (p : phase) : bool :=
  match p with Complete => true | _ => false end.

(** The text inserted into the widget for one handled result
    (lines 63-67). *)
Definition result_line (r : string * bool) : string :=
  (if snd r then "[+] Host Up: " +++ fst r
   else "[-] No Response: " +++ fst r) +++ newline.

(** The two texts inserted after the [with] block (lines 69-70). *)
Definition closing_lines (responsive_hosts : list string) : list string :=
  [ (newline +++ "Sweep complete.") +++ newline;
    (str_int (Z.of_nat (List.length responsive_hosts))
     +++ " host(s) responded." +++ newline) +++ newline ].

(** The four texts inserted before the [with] block (lines 51-54). *)
Definition opening_lines (subnet start_ip end_ip : string)
    (count timeout : Z) : list string :=
  [ ("Pinging subnet: " +++ subnet) +++ newline;
    ("Ping count: " +++ str_int count +++ ", Timeout: "
     +++ str_int timeout +++ "ms") +++ newline;
    (if nonempty start_ip && nonempty end_ip
     then "Range: " +++ start_ip +++ " - " +++ end_ip
     else "Range: full subnet") +++ newline;
    ("Starting sweep..." +++ newline) +++ newline ].

(** A text made of white space only. *)
Fixpoint blank (s : string) : bool :=
  match s with
  | EmptyString => true
  | String c s' => isspace c && blank s'
  end.

Section WithHost.

Context {host : Host}.

Variables count timeout : Z.

(** The verdict [ping_host] gives for an address: the [ping] command ran
    and returned 0. *)
Definition answers (ip : address) : bool :=
  match subprocess_run (ping_command ip count timeout) with
  | Return returncode => returncode =? 0
  | Raise => false
  end.

Variable candidates : list address.

(** The widget's texts when the scan starts. *)
Variable log0 : list string.

(** The order a scan keeps: candidates leave the head of the list one
    by one, threads are started by submissions only, and the log grows
    by one text per handled result. *)
Record orderly (s : sweep_state) : Prop := {
  in_order :
    exists started,
      candidates = started ++ _work_queue s ++ to_submit s
      /\ List.length started
         = (List.length (in_flight s) + List.length (finished s)
            + List.length (results s))%nat;
  threads_started :
    (_threads s + List.length (to_submit s) <= List.length candidates)%nat;
  logged :
    output_text s
    = log0 ++ map result_line (results s)
      ++ (if complete (at_phase s)
          then closing_lines (responsive_hosts s) else [])
}.

End WithHost.

End Report.

(** ** Exporting the results *)

Module Exporter.

Import PingSweep.

Inductive dialog : Type :=
| showinfo (title message : string)
| showerror (title message : string).

(** The desktop that [export_results] talks to. *)
Class Desktop : Type := {
  (** the answer of [filedialog.asksaveasfilename]: the path chosen,
      empty when the dialog is dismissed *)
  asksaveasfilename : string;
  (** opening the file of this path for writing, writing the texts one
      after the other and closing it: [None] when all of it worked,
      the text of the exception otherwise *)
  write_file : string -> list string -> option string
}.

(** What [export_results] did: the dialogs it showed, and the path and
    the text of the file it wrote. *)
Record exported : Type := {
  dialogs : list dialog;
  saved : option (string * string)
}.

Definition export_results {desktop : Desktop} (results : list string)
  : exported :=
  if is_nil results then
    {| dialogs := [showinfo "Export" "No results to export."];
       saved := None |}
  else
    let filepath := asksaveasfilename in
    if nonempty filepath then
      let writes := map (fun host => host +++ newline) results in
      match write_file filepath writes with
      | None =>
          {| dialogs :=
               [showinfo "Export Successful"
                  ("Results saved to:" +++ newline +++ filepath)];
             saved := Some (filepath, String.concat "" writes) |}
      | Some e =>
          {| dialogs := [showerror "Export Failed" e]; saved := None |}
      end
    else {| dialogs := []; saved := None |}.

(** [text.split("\n")] *)
Definition split_lines (text : string) : list string :=
  ExampleHost.split (ascii_of_nat 10) text.

(** No line break inside the text. *)
Fixpoint one_line (s : string) : bool :=
  match s with
  | EmptyString => true
  | String c s' => negb (Ascii.eqb c (ascii_of_nat 10)) && one_line s'
  end.

(** A desktop on which the file [hosts.txt] is chosen and written. *)
Definition office : Desktop :=
  {| asksaveasfilename := "hosts.txt"; write_file := fun _ _ => None |}.

End Exporter.

(** * Properties *)

(** ** Ranges and raising filters *)

Lemma range_nil lo hi : hi <= lo -> range lo hi = [].
Proof.
  intros H. unfold range.
  replace (Z.to_nat (hi - lo)) with 0%nat by lia. reflexivity.
Qed.

Lemma range_cons lo hi : lo < hi -> range lo hi = lo :: range (lo + 1) hi.
Proof.
  intros H. unfold range.
  replace (Z.to_nat (hi - lo)) with (S (Z.to_nat (hi - (lo + 1)))) by lia.
  cbn [seq map]. f_equal; [lia|].
  rewrite <- seq_shift, map_map.
  apply map_ext. intros i. lia.
Qed.

Lemma range_snoc lo hi : lo < hi -> range lo hi = range lo (hi - 1) ++ [hi - 1].
Proof.
  intros H. unfold range.
  replace (Z.to_nat (hi - lo)) with (S (Z.to_nat (hi - 1 - lo))) by lia.
  rewrite seq_S, map_app. cbn [map Nat.add]. do 2 f_equal. lia.
Qed.

Lemma in_range lo hi x : In x (range lo hi) <-> lo <= x < hi.
Proof.
  unfold range. rewrite in_map_iff. split.
  - intros (i & <- & Hi). apply in_seq in Hi. lia.
  - intros Hx. exists (Z.to_nat (x - lo)). split; [lia|].
    apply in_seq. lia.
Qed.

Lemma range_sorted lo hi : StronglySorted Z.lt (range lo hi).
Proof.
  remember (Z.to_nat (hi - lo)) as k eqn:Hk.
  revert lo Hk. induction k as [|k IH]; intros lo Hk.
  - rewrite range_nil by lia. constructor.
  - rewrite range_cons by lia. constructor.
    + apply IH. lia.
    + apply Forall_forall. intros x Hx. apply in_range in Hx. lia.
Qed.

Lemma filter_true {A : Type} (p : A -> bool) (l : list A) :
  (forall x, In x l -> p x = true) -> filter p l = l.
Proof.
  induction l as [|a l IH]; intros H; cbn; [reflexivity|].
  rewrite (H a) by (left; reflexivity).
  f_equal. apply IH. intros x Hx. apply H. right. exact Hx.
Qed.

Lemma range_drop_first lo hi :
  lo < hi -> filter (fun x => negb (x =? lo)) (range lo hi) = range (lo + 1) hi.
Proof.
  intros H. rewrite range_cons by exact H. cbn [filter].
  rewrite Z.eqb_refl. cbn [negb].
  apply filter_true. intros x Hx. apply in_range in Hx.
  apply negb_true_iff, Z.eqb_neq. lia.
Qed.

Lemma range_drop_ends lo hi :
  lo + 1 < hi ->
  filter (fun x => negb (x =? lo) && negb (x =? hi - 1)) (range lo hi)
  = range (lo + 1) (hi - 1).
Proof.
  intros H. rewrite range_cons by lia. cbn [filter].
  rewrite Z.eqb_refl. cbn [negb andb].
  rewrite (range_snoc (lo + 1) hi) by lia.
  rewrite filter_app. cbn [filter].
  rewrite Z.eqb_refl, andb_false_r, app_nil_r.
  apply filter_true. intros x Hx. apply in_range in Hx.
  apply andb_true_iff. split; apply negb_true_iff, Z.eqb_neq; lia.
Qed.

Lemma sorted_map {A B : Type} (R : A -> A -> Prop) (R' : B -> B -> Prop)
    (f : A -> B) (l : list A) :
  (forall x y, R x y -> R' (f x) (f y)) ->
  StronglySorted R l -> StronglySorted R' (map f l).
Proof.
  intros Hf. induction 1 as [|a l Hs IH Ha]; cbn; constructor.
  - exact IH.
  - apply Forall_forall. intros y Hy. apply in_map_iff in Hy.
    destruct Hy as (x & <- & Hx). apply Hf.
    rewrite Forall_forall in Ha. apply Ha, Hx.
Qed.

Lemma filter_raising_in {A : Type} (p : A -> outcome bool) (l r : list A) :
  filter_raising p l = Return r ->
  forall x, In x r <-> In x l /\ p x = Return true.
Proof.
  revert r. induction l as [|a l IH]; intros r H x; cbn in H.
  - injection H as <-. cbn. tauto.
  - destruct (p a) as [b|] eqn:Hp; cbn in H; [|discriminate].
    destruct (filter_raising p l) as [r'|] eqn:Hr; cbn in H; [|discriminate].
    injection H as <-. specialize (IH r' eq_refl x).
    destruct b; cbn; rewrite IH; split.
    + intros [<-|[H1 H2]]; auto.
    + intros [[<-|H1] H2]; auto.
    + intros [H1 H2]; auto.
    + intros [[<-|H1] H2]; [congruence|auto].
Qed.

Lemma filter_raising_sorted {A : Type} (R : A -> A -> Prop)
    (p : A -> outcome bool) (l r : list A) :
  filter_raising p l = Return r -> StronglySorted R l -> StronglySorted R r.
Proof.
  intros H Hs. revert r H.
  induction Hs as [|a l Hs IH Ha]; intros r H; cbn in H.
  - injection H as <-. constructor.
  - destruct (p a) as [b|] eqn:Hp; cbn in H; [|discriminate].
    destruct (filter_raising p l) as [r'|] eqn:Hr; cbn in H; [|discriminate].
    injection H as <-. specialize (IH r' eq_refl).
    destruct b; [|exact IH]. constructor; [exact IH|].
    apply Forall_forall. intros x Hx.
    apply (filter_raising_in _ _ _ Hr) in Hx.
    rewrite Forall_forall in Ha. apply Ha, Hx.
Qed.

(** A comprehension whose condition holds nowhere is empty. *)
Lemma filter_raising_none {A : Type} (p : A -> outcome bool) (l r : list A) :
  filter_raising p l = Return r ->
  (forall x, In x l -> p x <> Return true) -> r = [].
Proof.
  intros H Hn. destruct r as [|x r]; [reflexivity|].
  exfalso. apply (Hn x); apply (filter_raising_in _ _ _ H x); left; reflexivity.
Qed.

(** A condition that never raises makes the comprehension a [filter]. *)
Lemma filter_raising_total {A : Type} (p : A -> outcome bool) (q : A -> bool)
    (l : list A) :
  (forall x, In x l -> p x = Return (q x)) ->
  filter_raising p l = Return (filter q l).
Proof.
  induction l as [|a l IH]; intros H; cbn; [reflexivity|].
  rewrite (H a) by (left; reflexivity). cbn.
  rewrite IH by (intros x Hx; apply H; right; exact Hx). cbn.
  destruct (q a); reflexivity.
Qed.

Lemma sorted_lt_NoDup {A : Type} (f : A -> Z) (l : list A) :
  StronglySorted (fun a b => f a < f b) l -> NoDup l.
Proof.
  induction 1 as [|a l Hs IH Ha]; constructor; [|exact IH].
  intros Hin. rewrite Forall_forall in Ha. specialize (Ha a Hin). lia.
Qed.

(** ** Masks *)

Lemma max_prefixlen_pos (v : ip_version) : 0 < _max_prefixlen v.
Proof. destruct v; cbn; lia. Qed.

Lemma all_ones_ones (v : ip_version) : _ALL_ONES v = Z.ones (_max_prefixlen v).
Proof. unfold _ALL_ONES. rewrite Z.ones_equiv. lia. Qed.

Section Masks.

Variable v : ip_version.
Variable p : Z.
Hypothesis Hp : 0 <= p <= _max_prefixlen v.

Let m := _max_prefixlen v.
Let h := m - p.

Lemma prefix_mask_bits i :
  0 <= i ->
  Z.testbit (_ip_int_from_prefix v p) i = (h <=? i) && (i <? m).
Proof.
  intros Hi. unfold _ip_int_from_prefix.
  rewrite Z.lxor_spec, Z.shiftr_spec by lia.
  rewrite all_ones_ones, !Z.testbit_ones_nonneg by (fold m; lia).
  fold m. subst h.
  destruct (i <? m) eqn:E1, (i + p <? m) eqn:E2, (m - p <=? i) eqn:E3;
    cbn; try reflexivity; lia.
Qed.

Lemma bits_above (x i : Z) :
  0 <= x <= _ALL_ONES v -> m <= i -> Z.testbit x i = false.
Proof.
  intros Hx Hi.
  assert (Hm : 0 < m) by apply (max_prefixlen_pos v).
  replace x with (Z.land x (Z.ones m)).
  - rewrite Z.land_spec, Z.testbit_ones_nonneg by lia.
    replace (i <? m) with false by lia. apply andb_false_r.
  - rewrite Z.land_ones by lia. apply Z.mod_small.
    unfold _ALL_ONES in Hx. fold m in Hx. lia.
Qed.

(** Masking keeps the multiple of the network size below the address. *)
Lemma land_prefix_mask (x : Z) :
  0 <= x <= _ALL_ONES v ->
  Z.land x (_ip_int_from_prefix v p) = 2 ^ h * (x / 2 ^ h).
Proof.
  intros Hx.
  assert (Hh : 0 <= h) by (subst h m; lia).
  transitivity (Z.ldiff x (Z.ones h)).
  - apply Z.bits_inj'. intros i Hi.
    rewrite Z.land_spec, Z.ldiff_spec, prefix_mask_bits by exact Hi.
    rewrite Z.testbit_ones_nonneg by lia.
    destruct (Z_lt_le_dec i m) as [Hlt|Hge].
    + replace (i <? m) with true by lia. rewrite andb_true_r.
      f_equal. destruct (h <=? i) eqn:E1, (i <? h) eqn:E2; cbn; try reflexivity; lia.
    + rewrite (bits_above x i Hx Hge). reflexivity.
  - rewrite Z.ldiff_ones_r, Z.shiftl_mul_pow2, Z.shiftr_div_pow2 by lia.
    lia.
Qed.

Lemma hostmask_ones :
  Z.lxor (_ip_int_from_prefix v p) (_ALL_ONES v) = Z.ones h.
Proof.
  assert (Hh : 0 <= h) by (subst h m; lia).
  apply Z.bits_inj'. intros i Hi.
  rewrite Z.lxor_spec, prefix_mask_bits by exact Hi.
  rewrite all_ones_ones, !Z.testbit_ones_nonneg by (fold m; lia).
  fold m.
  destruct (h <=? i) eqn:E1, (i <? m) eqn:E2, (i <? h) eqn:E3;
    cbn; try reflexivity; subst h; lia.
Qed.

Lemma lor_ones_low (k : Z) :
  Z.lor (2 ^ h * k) (Z.ones h) = 2 ^ h * k + 2 ^ h - 1.
Proof.
  assert (Hh : 0 <= h) by (subst h m; lia).
  assert (H0 : Z.land (2 ^ h * k) (Z.ones h) = 0).
  { rewrite Z.land_ones by lia. rewrite Z.mul_comm. apply Z.mod_mul.
    apply Z.pow_nonzero; lia. }
  rewrite <- Z.lxor_lor, <- Z.add_nocarry_lxor by exact H0.
  rewrite Z.ones_equiv. lia.
Qed.

End Masks.

(** ** The network object *)

Section Network.

Variable a : address.
Variable p : Z.
Hypothesis Hwf : Spec.well_formed a p.

Local Abbreviation n := (make_network a p).

Lemma make_network_version : net_version n = _version a.
Proof.
  unfold net_version, make_network. cbn.
  destruct (negb _); reflexivity.
Qed.

Lemma make_network_first :
  Spec.first_address n
  = 2 ^ (_max_prefixlen (_version a) - p)
    * (_ip a / 2 ^ (_max_prefixlen (_version a) - p)).
Proof.
  pose proof Hwf as [Ha Hp].
  rewrite <- (land_prefix_mask _ p Hp (_ip a) Ha).
  unfold Spec.first_address, make_network. cbn.
  destruct (Z.land _ _ =? _ip a) eqn:E; cbn; [|reflexivity].
  apply Z.eqb_eq in E. symmetry. exact E.
Qed.

Lemma make_network_num :
  Spec.num_addresses n = 2 ^ (_max_prefixlen (_version a) - p).
Proof. unfold Spec.num_addresses. rewrite make_network_version. reflexivity. Qed.

Lemma make_network_broadcast : broadcast_address n = Spec.last_address n.
Proof.
  pose proof Hwf as [Ha Hp].
  unfold Spec.last_address. rewrite make_network_num.
  unfold broadcast_address, hostmask, netmask.
  fold (Spec.first_address n). rewrite make_network_version.
  change (_prefixlen n) with p.
  rewrite (hostmask_ones _ p Hp), make_network_first.
  apply (lor_ones_low _ p Hp).
Qed.

(** A single-address network is the address it was given. *)
Lemma make_network_single :
  p = _max_prefixlen (_version a) -> Spec.first_address n = _ip a.
Proof.
  intros E. rewrite make_network_first, E, Z.sub_diag, Z.pow_0_r.
  rewrite Z.div_1_r. lia.
Qed.

Lemma map_ip_address_class (v : ip_version) (l : list Z) :
  map _ip (map (_address_class v) l) = l.
Proof. rewrite map_map. cbn. apply map_id. Qed.

(** What [hosts()] yields, in the specification's vocabulary. *)
Lemma hosts_values :
  map _ip (hosts n)
  = match _version a with
    | IPv4 => Spec.usable_hosts n
    | IPv6 => Spec.usable_hosts_ipv6 n
    end.
Proof.
  assert (Hv := make_network_version).
  assert (Hb := make_network_broadcast).
  assert (Hnum := make_network_num).
  pose proof Hwf as [Ha Hp].
  assert (Hm := max_prefixlen_pos (_version a)).
  unfold hosts, __iter__. fold (Spec.first_address n).
  rewrite Hv, Hb. change (_prefixlen n) with p.
  unfold Spec.usable_hosts, Spec.usable_hosts_ipv6, Spec.all_addresses.
  unfold Spec.last_address in *. rewrite Hnum.
  set (m := _max_prefixlen (_version a)) in *.
  set (f := Spec.first_address n) in *.
  destruct (Z.eqb_spec p (m - 1)) as [E1|E1].
  - (* two addresses *)
    replace (m - p) with 1 by lia. cbn [Z.pow Z.pow_pos Pos.iter Z.mul Pos.mul].
    replace (2 <? 2) with false by reflexivity.
    rewrite map_ip_address_class.
    replace (f + 2 - 1 + 1) with (f + 2) by lia.
    destruct (_version a); reflexivity.
  - destruct (Z.eqb_spec p m) as [E2|E2].
    + (* one address *)
      replace (m - p) with 0 by lia. cbn [Z.pow].
      replace (2 <? 1) with false by reflexivity.
      rewrite range_cons, range_nil by lia.
      cbn [map]. change (addr n) with a.
      unfold f. rewrite (make_network_single E2).
      destruct (_version a); reflexivity.
    + (* more than two addresses *)
      assert (Hbig : 2 < 2 ^ (m - p)).
      { replace (m - p) with (Z.succ (Z.succ (m - p - 2))) by lia.
        rewrite !Z.pow_succ_r by lia.
        assert (0 < 2 ^ (m - p - 2)) by (apply Z.pow_pos_nonneg; lia). lia. }
      replace (2 <? 2 ^ (m - p)) with true by lia.
      destruct (_version a); rewrite map_ip_address_class.
      * rewrite <- (range_drop_ends f (f + 2 ^ (m - p))) by lia.
        apply filter_ext. intros x. do 3 f_equal.
      * rewrite range_drop_first by lia. f_equal. lia.
Qed.

End Network.

(** ** Range resolution *)

Import PingSweep.

Lemma hosts_sorted (n : network) : StronglySorted Spec.by_value (hosts n).
Proof.
  assert (Hmap : forall v lo hi,
             StronglySorted Spec.by_value (map (_address_class v) (range lo hi))).
  { intros v lo hi. apply (sorted_map Z.lt); [|apply range_sorted].
    intros x y Hxy. exact Hxy. }
  unfold hosts, __iter__.
  destruct (_prefixlen n =? _); [apply Hmap|].
  destruct (_prefixlen n =? _); [repeat constructor|].
  destruct (net_version n); apply Hmap.
Qed.

Lemma address_le_true (a b : address) :
  address_le a b = Return true -> _ip a <= _ip b.
Proof.
  unfold address_le, address_lt, address_eq.
  destruct (version_eqb _ _); cbn; [|discriminate].
  destruct (Z.eqb_spec (_ip a) (_ip b)) as [E|E]; cbn; [lia|].
  rewrite orb_false_r. intros H. injection H as H. lia.
Qed.

(** Between addresses of one version that carry no scope id, [<=] is the
    order of the values. *)
Lemma address_le_plain (a b : address) :
  _version a = _version b -> _scope_id a = None -> _scope_id b = None ->
  address_le a b = Return (_ip a <=? _ip b).
Proof.
  intros Hv Ha Hb. unfold address_le, address_lt, address_eq.
  rewrite Hv, Ha, Hb.
  replace (version_eqb (_version b) (_version b)) with true
    by (destruct (_version b); reflexivity).
  cbn. destruct (Z.eqb_spec (_ip a) (_ip b)) as [E|E]; cbn.
  - destruct (_version b); cbn; f_equal; lia.
  - rewrite orb_false_r. f_equal. lia.
Qed.

Lemma hosts_plain (a h : address) (p : Z) :
  In h (hosts (make_network a p)) ->
  _version h = _version a /\ (_scope_id a = None -> _scope_id h = None).
Proof.
  assert (Hv : net_version (make_network a p) = _version a).
  { unfold net_version, make_network. cbn. destruct (negb _); reflexivity. }
  assert (Hmap : forall lo hi,
             In h (map (_address_class (_version a)) (range lo hi)) ->
             _version h = _version a /\ (_scope_id a = None -> _scope_id h = None)).
  { intros lo hi Hin. apply in_map_iff in Hin. destruct Hin as (x & <- & _).
    split; reflexivity. }
  unfold hosts, __iter__. rewrite Hv.
  destruct (_ =? _); [apply Hmap|].
  destruct (_ =? _).
  - intros [<-|[]]. cbn. split; [reflexivity|intros H; exact H].
  - destruct (_version a) eqn:E; apply Hmap.
Qed.

Section Resolve.

Context {host : Host}.

Lemma within_true (start end_ ip : address) :
  within start end_ ip = Return true -> _ip start <= _ip ip <= _ip end_.
Proof.
  unfold within. destruct (address_le start ip) as [[|]|] eqn:E; cbn;
    try discriminate.
  intros H. split; apply address_le_true; assumption.
Qed.

Lemma get_ip_range_eq (start_ip end_ip subnet : string) :
  get_ip_range start_ip end_ip subnet
  = match (network <- ip_network subnet ;;
           start <- ip_address start_ip ;;
           end_ <- ip_address end_ip ;;
           filter_raising (within start end_) (hosts network)) with
    | Return l => Some l
    | Raise => None
    end.
Proof. reflexivity. Qed.

(** With both bounds given, a range that is [None] or empty is refused. *)
Lemma ip_range_bounded (subnet start_ip end_ip : string) :
  nonempty start_ip = true -> nonempty end_ip = true ->
  ip_range subnet start_ip end_ip
  = match get_ip_range start_ip end_ip subnet with
    | None | Some [] => inl Spec.invalid_range
    | Some l => inr l
    end.
Proof. intros H1 H2. unfold ip_range. rewrite H1, H2. reflexivity. Qed.

Lemma start_sweep_refused (subnet start_ip end_ip : string) (count timeout : Z)
    (o r : list string) (e : value_error) :
  ip_range subnet start_ip end_ip = inl e ->
  start_sweep subnet start_ip end_ip count timeout o r = inl e.
Proof. intros H. unfold start_sweep. rewrite H. reflexivity. Qed.

(** Bounds between which no host lies give no range. *)
Lemma vacuous_bounds (subnet start_ip end_ip : string) (start end_ : address) :
  nonempty start_ip = true -> nonempty end_ip = true ->
  ip_address start_ip = Return start -> ip_address end_ip = Return end_ ->
  Spec.excludes_every_host subnet start end_ ->
  ip_range subnet start_ip end_ip = inl Spec.invalid_range.
Proof.
  intros H1 H2 Hs He Hout.
  rewrite ip_range_bounded, get_ip_range_eq by assumption.
  destruct (ip_network subnet) as [n|] eqn:En; cbn; [|reflexivity].
  rewrite Hs, He. cbn.
  destruct (filter_raising _ _) as [l|] eqn:Hf; [|reflexivity].
  rewrite (filter_raising_none _ _ _ Hf); [reflexivity|].
  intros h Hh Hw. apply (Hout n h En Hh), within_true, Hw.
Qed.

(** Unreadable or reversed bounds give no range. *)
Lemma bad_bounds_refused (subnet start_ip end_ip : string) :
  nonempty start_ip = true -> nonempty end_ip = true ->
  Spec.bad_bounds start_ip end_ip ->
  ip_range subnet start_ip end_ip = inl Spec.invalid_range.
Proof.
  intros H1 H2 [Hs|[He|(a & b & Hs & He & Hlt)]].
  - rewrite ip_range_bounded, get_ip_range_eq by assumption.
    destruct (ip_network subnet); cbn; [|reflexivity].
    rewrite Hs. reflexivity.
  - rewrite ip_range_bounded, get_ip_range_eq by assumption.
    destruct (ip_network subnet); cbn; [|reflexivity].
    destruct (ip_address start_ip); cbn; [|reflexivity].
    rewrite He. reflexivity.
  - apply (vacuous_bounds _ _ _ a b); try assumption.
    intros n h _ _. lia.
Qed.

End Resolve.

(** ** The scan *)

Import Scan.

Lemma is_nil_true {A : Type} (l : list A) : is_nil l = true -> l = [].
Proof. destruct l; [reflexivity|discriminate]. Qed.

Lemma nth_error_remove_nth {A : Type} (k : nat) (l : list A) (y : A) :
  nth_error l k = Some y -> Permutation l (y :: remove_nth k l).
Proof.
  revert k. induction l as [|a l IH]; intros [|k] H; cbn in *;
    try discriminate.
  - injection H as ->. reflexivity.
  - rewrite (IH k H) at 1. apply perm_swap.
Qed.

Lemma remove_nth_length {A : Type} (k : nat) (l : list A) (y : A) :
  nth_error l k = Some y ->
  List.length l = S (List.length (remove_nth k l)).
Proof.
  intros H. apply (Permutation_length (nth_error_remove_nth k l y H)).
Qed.

Lemma remove_nth_map {A B : Type} (f : A -> B) (k : nat) (l : list A) :
  remove_nth k (map f l) = map f (remove_nth k l).
Proof.
  revert k. induction l as [|a l IH]; intros [|k]; cbn; try reflexivity.
  f_equal. apply IH.
Qed.

Section ScanFacts.

Context {host : Host}.

Variable max_workers : nat.
Variables count timeout : Z.
Variable candidates : list address.
Variable result_list0 : list string.

Hypothesis workers : (0 < max_workers)%nat.

Local Abbreviation step' := (step max_workers count timeout).
Local Abbreviation run' := (run max_workers count timeout).
Local Abbreviation ok := (consistent max_workers count timeout candidates result_list0).
Local Abbreviation outs := (outcomes count timeout).

Lemma ping_host_returns (ip : address) :
  exists is_up, ping_host ip count timeout = Return (str_address ip, is_up).
Proof.
  unfold ping_host. destruct (subprocess_run _); eexists; reflexivity.
Qed.

Lemma occurrences_cons x y l :
  occurrences x (y :: l) = (occurrences x [y] + occurrences x l)%nat.
Proof.
  unfold occurrences. cbn [count_occ].
  destruct (outcome_eq_dec y x); reflexivity.
Qed.

Lemma occurrences_app x l l' :
  occurrences x (l ++ l') = (occurrences x l + occurrences x l')%nat.
Proof. apply count_occ_app. Qed.

Lemma occurrences_remove_nth x k l y :
  nth_error l k = Some y ->
  occurrences x l = (occurrences x [y] + occurrences x (remove_nth k l))%nat.
Proof.
  intros H. rewrite <- occurrences_cons. unfold occurrences.
  apply Permutation_count_occ, nth_error_remove_nth, H.
Qed.

Lemma occurrences_self x : occurrences x [x] = 1%nat.
Proof.
  unfold occurrences. cbn [count_occ].
  destruct (outcome_eq_dec x x); congruence.
Qed.

Lemma outcomes_never_raise l : occurrences Raise (outs l) = 0%nat.
Proof.
  induction l as [|ip l IH]; [reflexivity|].
  cbn [outcomes map]. rewrite occurrences_cons. fold (outs l). rewrite IH.
  destruct (ping_host_returns ip) as [b ->].
  unfold occurrences. cbn [count_occ].
  destruct (outcome_eq_dec (Return (str_address ip, b)) Raise);
    [discriminate|reflexivity].
Qed.

Lemma outcomes_app l l' : outs (l ++ l') = outs l ++ outs l'.
Proof. apply map_app. Qed.

Ltac fields :=
  cbn [to_submit _work_queue in_flight _threads _idle_semaphore finished
       results responsive_hosts output_text result_list at_phase].

Lemma step_consistent e s s' : ok s -> step' e s = Some s' -> ok s'.
Proof.
  intros [Hacc [Hb1 Hb2] Hlive Hresp Hph] H.
  unfold held in Hacc.
  destruct e; cbn [step] in H.
  - (* Submit *)
    destruct (to_submit s) as [|ip rest] eqn:Et; [discriminate|].
    destruct (at_phase s) eqn:Ep; try discriminate.
    cbn [sweeping] in H.
    destruct (_adjust_thread_count max_workers (_idle_semaphore s) (_threads s))
      as [sem threads] eqn:E.
    assert (Hpool : (_threads s <= threads <= max_workers)%nat
                    /\ threads <> 0%nat).
    { unfold _adjust_thread_count in E.
      destruct (Nat.ltb_spec 0 (_idle_semaphore s)) as [Hs|Hs].
      - injection E as <- <-. split; [lia|]. intros H0.
        destruct (Hlive H0) as [Hz _]. lia.
      - destruct (Nat.ltb_spec (_threads s) max_workers);
          injection E as <- <-; split; lia. }
    destruct Hpool as [[Ht1 Ht2] Ht3].
    injection H as <-. constructor; fields.
    + intros x. specialize (Hacc x). unfold held. fields.
      rewrite outcomes_app, occurrences_app.
      cbn [outcomes map] in Hacc |- *. rewrite occurrences_cons in Hacc.
      rewrite (occurrences_cons x _ []). cbn [occurrences count_occ] in Hacc |- *.
      unfold outcomes, occurrences in *. lia.
    + lia.
    + intros H0. contradiction.
    + exact Hresp.
    + exact Hph.
  - (* Get *)
    destruct (_work_queue s) as [|ip queue] eqn:Eq; [discriminate|].
    destruct (Nat.ltb_spec (List.length (in_flight s)) (_threads s)) as [Hl|Hl];
      [|discriminate].
    injection H as <-. constructor; fields.
    + intros x. specialize (Hacc x). unfold held. fields.
      rewrite outcomes_app, occurrences_app.
      cbn [outcomes map] in Hacc |- *. rewrite occurrences_cons in Hacc.
      rewrite (occurrences_cons x _ []). cbn [occurrences count_occ] in Hacc |- *.
      unfold outcomes, occurrences in *. lia.
    + rewrite length_app. cbn. lia.
    + intros H0. lia.
    + exact Hresp.
    + destruct (at_phase s); [exact Hph| |exact Hph].
      destruct Hph as (_ & _ & Hq & _). discriminate.
  - (* Done *)
    destruct (nth_error (in_flight s) k) as [ip|] eqn:Ek; [|discriminate].
    injection H as <-. constructor; fields.
    + intros x. specialize (Hacc x). unfold held. fields.
      rewrite occurrences_app.
      assert (Hk : nth_error (outs (in_flight s)) k
                   = Some (ping_host ip count timeout))
        by (apply (map_nth_error (fun ip => ping_host ip count timeout)), Ek).
      rewrite (occurrences_remove_nth x k _ _ Hk) in Hacc.
      unfold outcomes in Hacc. rewrite remove_nth_map in Hacc.
      rewrite (occurrences_cons x _ []).
      cbn [occurrences count_occ] in Hacc |- *.
      unfold outcomes, occurrences in *. lia.
    + rewrite (remove_nth_length k _ _ Ek) in Hb1. lia.
    + intros H0. destruct (Hlive H0) as (_ & _ & Hi).
      rewrite Hi in Ek. destruct k; discriminate.
    + exact Hresp.
    + destruct (at_phase s); [exact Hph| |exact Hph].
      destruct Hph as (_ & _ & _ & Hi & _).
      rewrite Hi in Ek. destruct k; discriminate.
  - (* Yield *)
    destruct (at_phase s) eqn:Ep; cbn in H; try discriminate.
    destruct (is_nil (to_submit s)) eqn:Et; [|discriminate].
    destruct (nth_error (finished s) k) as [[[ip is_up]|]|] eqn:Ek;
      [| |discriminate].
    + injection H as <-. constructor; fields.
      * intros x. specialize (Hacc x). unfold held. fields.
        rewrite map_app, occurrences_app. cbn [map].
        rewrite (occurrences_remove_nth x k _ _ Ek) in Hacc. lia.
      * lia.
      * exact Hlive.
      * rewrite filter_app, map_app, <- Hresp. cbn.
        destruct is_up; cbn; [reflexivity|]. rewrite app_nil_r. reflexivity.
      * exact Hph.
    + exfalso. specialize (Hacc Raise).
      rewrite !outcomes_never_raise in Hacc.
      rewrite (occurrences_remove_nth Raise k _ _ Ek), occurrences_self in Hacc.
      lia.
  - (* Exit *)
    destruct (at_phase s) eqn:Ep; cbn in H; try discriminate.
    destruct (is_nil (to_submit s)) eqn:E1; [|discriminate].
    destruct (is_nil (_work_queue s)) eqn:E2; [|discriminate].
    destruct (is_nil (in_flight s)) eqn:E3; [|discriminate].
    destruct (is_nil (finished s)) eqn:E4; [|discriminate].
    cbn in H. injection H as <-.
    apply is_nil_true in E1, E2, E3, E4.
    constructor; fields.
    + exact Hacc.
    + lia.
    + exact Hlive.
    + exact Hresp.
    + auto.
Qed.

Lemma run_consistent events s s' : ok s -> run' events s = Some s' -> ok s'.
Proof.
  revert s. induction events as [|e events IH]; intros s Hs H; cbn in H.
  - injection H as <-. exact Hs.
  - destruct (step' e s) as [s1|] eqn:E; [|discriminate].
    apply (IH s1); [|exact H]. apply (step_consistent e s); assumption.
Qed.

Lemma step_remaining e s s' :
  step' e s = Some s' -> (remaining s' < remaining s)%nat.
Proof.
  clear workers. intros H. unfold remaining. destruct e; cbn [step] in H.
  - destruct (to_submit s) as [|ip rest] eqn:Et; [discriminate|].
    destruct (sweeping (at_phase s)) eqn:Ep; [|discriminate].
    destruct (_adjust_thread_count _ _ _) as [sem threads].
    injection H as <-. fields. rewrite length_app, Ep. cbn. lia.
  - destruct (_work_queue s) as [|ip queue] eqn:Eq; [discriminate|].
    destruct (_ <? _)%nat; [|discriminate].
    injection H as <-. fields. rewrite length_app. cbn. lia.
  - destruct (nth_error (in_flight s) k) as [ip|] eqn:Ek; [|discriminate].
    injection H as <-. fields.
    rewrite length_app, (remove_nth_length k _ _ Ek). cbn. lia.
  - destruct (sweeping (at_phase s)) eqn:Ep; [|discriminate].
    destruct (is_nil (to_submit s)); [|discriminate]. cbn [andb] in H.
    destruct (nth_error (finished s) k) as [[[ip is_up]|]|] eqn:Ek;
      [| |discriminate]; injection H as <-; fields;
      rewrite (remove_nth_length k _ _ Ek); [rewrite Ep|]; cbn; lia.
  - destruct (sweeping (at_phase s)) eqn:Ep; [|discriminate].
    destruct (_ && _ && _ && _); [|discriminate]. cbn [andb] in H.
    injection H as <-. fields. cbn. lia.
Qed.

Lemma run_remaining events s s' :
  run' events s = Some s' ->
  (List.length events + remaining s' <= remaining s)%nat.
Proof.
  clear workers. revert s. induction events as [|e events IH]; intros s H; cbn in H.
  - injection H as <-. cbn. lia.
  - destruct (step' e s) as [s1|] eqn:E; [|discriminate].
    apply IH in H. apply step_remaining in E. cbn [List.length]. lia.
Qed.

(** A scan under way can always take a step. *)
Lemma progress s :
  ok s -> at_phase s = Sweeping -> exists e s', step' e s = Some s'.
Proof.
  clear workers. intros [_ [Hb1 Hb2] Hlive _ _] Ep.
  destruct (to_submit s) as [|ip rest] eqn:Et.
  - destruct (finished s) as [|r fin] eqn:Ef.
    + destruct (in_flight s) as [|ip fl] eqn:Ei.
      * destruct (_work_queue s) as [|ip queue] eqn:Eq.
        -- exists Exit. cbn [step]. rewrite Ep, Et, Eq, Ei, Ef. cbn.
           eexists. reflexivity.
        -- exists Get. cbn [step]. rewrite Eq, Ei. cbn [List.length].
           destruct (Nat.ltb_spec 0 (_threads s)) as [Hl|Hl];
             [eexists; reflexivity|].
           assert (H0 : _threads s = 0%nat) by lia.
           destruct (Hlive H0) as (_ & Hq & _). discriminate.
      * exists (Done 0). cbn [step]. rewrite Ei. cbn. eexists. reflexivity.
    + exists (Yield 0). cbn [step]. rewrite Ep, Et, Ef. cbn.
      destruct r as [[ip is_up]|]; eexists; reflexivity.
  - exists Submit. cbn [step]. rewrite Et, Ep. cbn [sweeping].
    destruct (_adjust_thread_count _ _ _). eexists. reflexivity.
Qed.

(** Every scan can be run to its end. *)
Lemma reach_complete s :
  ok s -> exists events s', run' events s = Some s' /\ at_phase s' = Complete.
Proof.
  remember (remaining s) as n eqn:Hn. revert s Hn.
  induction n as [n IH] using lt_wf_ind. intros s Hn Hs.
  destruct (at_phase s) eqn:Ep.
  - destruct (progress s Hs Ep) as (e & s1 & E).
    assert (Hs1 : ok s1) by (apply (step_consistent e s); assumption).
    assert (Hlt := step_remaining e s s1 E).
    destruct (IH (remaining s1) ltac:(lia) s1 eq_refl Hs1)
      as (events & s' & Hrun & Hc).
    exists (e :: events), s'. cbn [run]. rewrite E. auto.
  - exists [], s. auto.
  - destruct Hs as [_ _ _ _ Hph]. rewrite Ep in Hph. contradiction.
Qed.

(** At the end every candidate has given the loop its one result. *)
Lemma complete_results s :
  ok s -> at_phase s = Complete ->
  Permutation (map Return (results s)) (outs candidates).
Proof.
  intros [Hacc _ _ _ Hph] Ep. rewrite Ep in Hph.
  destruct Hph as (_ & Ht & Hq & Hi & Hf).
  apply (Permutation_count_occ outcome_eq_dec). intros x.
  specialize (Hacc x). unfold held in Hacc.
  rewrite Ht, Hq, Hi, Hf in Hacc. exact Hacc.
Qed.

Lemma complete_length s :
  ok s -> at_phase s = Complete ->
  List.length (results s) = List.length candidates.
Proof.
  intros Hs Ep. assert (H := Permutation_length (complete_results s Hs Ep)).
  unfold outcomes in H. rewrite !length_map in H. exact H.
Qed.

End ScanFacts.

Lemma start_sweep_consistent {host : Host} (max_workers : nat)
    (subnet start_ip end_ip : string) (count timeout : Z)
    (o r : list string) (s0 : sweep_state) :
  start_sweep subnet start_ip end_ip count timeout o r = inr s0 ->
  consistent max_workers count timeout (to_submit s0) r s0.
Proof.
  unfold start_sweep. destruct (ip_range subnet start_ip end_ip) as [e|l];
    [discriminate|].
  intros H. injection H as <-. constructor; cbn.
  - intros x. unfold held. cbn. lia.
  - lia.
  - auto.
  - reflexivity.
  - reflexivity.
Qed.

Lemma max_workers_pos : (0 < MAX_WORKERS)%nat.
Proof. unfold MAX_WORKERS. lia. Qed.

(** However a scan got where it is, it is left only with a result for
    every candidate. *)
Lemma finished_scan_is_full {host : Host}
    (subnet start_ip end_ip : string) (count timeout : Z)
    (o r : list string) (s0 : sweep_state) (events : list event)
    (s : sweep_state) (events' : list event) (s' : sweep_state) :
  start_sweep subnet start_ip end_ip count timeout o r = inr s0 ->
  run MAX_WORKERS count timeout events s0 = Some s ->
  run MAX_WORKERS count timeout events' s = Some s' ->
  at_phase s' <> Sweeping ->
  List.length (results s') = List.length (to_submit s0).
Proof.
  intros H0 Hrun Hrun' Hph.
  assert (Hs0 := start_sweep_consistent MAX_WORKERS _ _ _ _ _ _ _ _ H0).
  assert (Hs := run_consistent _ _ _ _ _ max_workers_pos _ _ _ Hs0 Hrun).
  assert (Hs' := run_consistent _ _ _ _ _ max_workers_pos _ _ _ Hs Hrun').
  apply (complete_length _ _ _ _ _ s' Hs').
  destruct Hs' as [_ _ _ _ Hp].
  destruct (at_phase s'); [congruence|reflexivity|contradiction].
Qed.

(** * The claims *)

Import Examples.

(** ** Range resolution *)

(** C8. Whatever the network text and the bounds, a range that
    [start_sweep] accepts is strictly ascending by numeric address value
    and holds no address twice. *)
Theorem ip_range_strictly_ascending {host : Host} :
  forall (subnet start_ip end_ip : string) (l : list address),
    ip_range subnet start_ip end_ip = inr l ->
    StronglySorted Spec.by_value l /\ NoDup l.
Proof.
  intros subnet start_ip end_ip l H.
  assert (Hs : StronglySorted Spec.by_value l).
  { unfold ip_range in H.
    destruct (nonempty start_ip && nonempty end_ip).
    - rewrite get_ip_range_eq in H.
      destruct (ip_network subnet) as [n|]; cbn in H; [|discriminate].
      destruct (ip_address start_ip) as [a|]; cbn in H; [|discriminate].
      destruct (ip_address end_ip) as [b|]; cbn in H; [|discriminate].
      destruct (filter_raising _ _) as [r|] eqn:Hf; [|discriminate].
      destruct r as [|x r]; [discriminate|]. injection H as <-.
      apply (filter_raising_sorted _ _ _ _ Hf), hosts_sorted.
    - destruct (ip_network subnet) as [n|]; [|discriminate].
      injection H as <-. apply hosts_sorted. }
  split; [exact Hs|]. apply (sorted_lt_NoDup _ip). exact Hs.
Qed.

Lemma ip_range_strictly_ascending_witness :
  exists l, ip_range (host := lab) "10.0.0.0/24" "10.0.0.3" "10.0.0.7" = inr l
            /\ List.length l = 5%nat
            /\ StronglySorted Spec.by_value l /\ NoDup l.
Proof.
  eexists. split; [vm_compute; reflexivity|]. split; [reflexivity|].
  apply (ip_range_strictly_ascending (host := lab)
           "10.0.0.0/24" "10.0.0.3" "10.0.0.7").
  vm_compute. reflexivity.
Defined.

(** C4, as the code has it. With no bound given, the range of a
    well-formed network text is the list of the network's usable hosts:
    for an IPv4 network the network and the broadcast address are left
    out when the network has more than two addresses; for an IPv6
    network only the network address is left out then; a network of one
    or two addresses gives all its addresses. *)
Theorem unbounded_range_is_usable_hosts {host : Host} :
  forall (subnet : string) (a : address) (p : Z),
    parse_network subnet = Some (a, p) ->
    Spec.well_formed a p ->
    exists l,
      ip_range subnet "" "" = inr l
      /\ map _ip l
         = match _version a with
           | IPv4 => Spec.usable_hosts (make_network a p)
           | IPv6 => Spec.usable_hosts_ipv6 (make_network a p)
           end
      /\ Forall (fun h => _version h = _version a) l.
Proof.
  intros subnet a p Hparse Hwf.
  exists (hosts (make_network a p)). split; [|split].
  - unfold ip_range, ip_network. cbn. rewrite Hparse. reflexivity.
  - apply hosts_values, Hwf.
  - apply Forall_forall. intros h Hh. apply (hosts_plain a h p Hh).
Qed.

Lemma unbounded_range_is_usable_hosts_witness :
  parse_network (Host := lab) "192.168.1.0/30"
  = Some (_address_class IPv4 3232235776, 30)
  /\ exists l,
       ip_range (host := lab) "192.168.1.0/30" "" "" = inr l
       /\ map _ip l = [3232235777; 3232235778].
Proof.
  split; [vm_compute; reflexivity|].
  destruct (unbounded_range_is_usable_hosts (host := lab) "192.168.1.0/30"
              (_address_class IPv4 3232235776) 30)
    as (l & Hl & Hv & _).
  - vm_compute. reflexivity.
  - unfold Spec.well_formed. cbn. lia.
  - exists l. split; [exact Hl|]. rewrite Hv. vm_compute. reflexivity.
Defined.

(** C4, as stated, fails on an IPv6 network: [2001:db8::/126] has four
    addresses, and its range keeps the last of them. *)
Lemma ipv6_range_keeps_last_address :
  exists a p l,
    parse_network (Host := lab) "2001:db8::/126" = Some (a, p)
    /\ Spec.well_formed a p
    /\ Spec.num_addresses (make_network a p) = 4
    /\ ip_range (host := lab) "2001:db8::/126" "" "" = inr l
    /\ In (Spec.last_address (make_network a p)) (map _ip l)
    /\ map _ip l <> Spec.usable_hosts (make_network a p).
Proof.
  eexists. eexists. eexists.
  split; [vm_compute; reflexivity|].
  split; [unfold Spec.well_formed; cbn; lia|].
  split; [vm_compute; reflexivity|].
  split; [vm_compute; reflexivity|].
  split.
  - vm_compute. right. right. left. reflexivity.
  - vm_compute. discriminate.
Qed.

(** C5, as the code has it. With both bounds given, a bound that
    cannot be read as an address, or a start above the end, makes
    [start_sweep] end with the error "Invalid IP range within subnet."
    before a scan exists. The error is not one of its own: it is the
    only error of the bounded path, whatever went wrong there; it
    differs only from the error that a malformed network text gives
    when no bounds are given. *)
Theorem bad_bounds_rejected {host : Host} :
  forall (subnet start_ip end_ip : string) (count timeout : Z)
         (o r : list string),
    nonempty start_ip = true -> nonempty end_ip = true ->
    Spec.bad_bounds start_ip end_ip ->
    ip_range subnet start_ip end_ip
    = inl (ValueError "Invalid IP range within subnet.")
    /\ start_sweep subnet start_ip end_ip count timeout o r
       = inl (ValueError "Invalid IP range within subnet.")
    /\ (forall subnet',
          ip_network subnet' = Raise ->
          start_sweep subnet' "" "" count timeout o r
          <> start_sweep subnet start_ip end_ip count timeout o r)
    /\ (forall subnet' start_ip' end_ip' e,
          nonempty start_ip' = true -> nonempty end_ip' = true ->
          start_sweep subnet' start_ip' end_ip' count timeout o r = inl e ->
          start_sweep subnet' start_ip' end_ip' count timeout o r
          = start_sweep subnet start_ip end_ip count timeout o r).
Proof.
  intros subnet start_ip end_ip count timeout o r H1 H2 Hbad.
  assert (H := bad_bounds_refused subnet start_ip end_ip H1 H2 Hbad).
  split; [exact H|]. split; [apply start_sweep_refused, H|].
  rewrite (start_sweep_refused _ _ _ _ _ _ _ _ H). split.
  - intros subnet' Hn.
    unfold start_sweep, ip_range. cbn. rewrite Hn. discriminate.
  - intros subnet' start_ip' end_ip' e H1' H2' He. rewrite He. f_equal.
    unfold start_sweep in He. rewrite ip_range_bounded in He by assumption.
    destruct (get_ip_range start_ip' end_ip' subnet') as [[|x l]|];
      cbn in He; try discriminate; injection He as <-; reflexivity.
Qed.

Lemma bad_bounds_rejected_witness :
  start_sweep (host := lab) "10.0.0.0/24" "10.0.0.250" "10.0.0.5" 1 1000 [] []
  = inl (ValueError "Invalid IP range within subnet.").
Proof.
  refine (proj1 (proj2 (bad_bounds_rejected (host := lab)
                   "10.0.0.0/24" "10.0.0.250" "10.0.0.5" 1 1000 [] []
                   _ _ _))).
  - reflexivity.
  - reflexivity.
  - right. right.
    exists (_address_class IPv4 167772410), (_address_class IPv4 167772165).
    split; [vm_compute; reflexivity|].
    split; [vm_compute; reflexivity|]. cbn. lia.
Defined.

(** C5, as stated, fails: the error of bad bounds is not distinct. The
    reversed bounds [10.0.0.250]-[10.0.0.5] end the call exactly as the
    well-formed bounds [10.0.1.1]-[10.0.1.5] do, between which no host
    of [10.0.0.0/24] lies, and exactly as the well-formed bounds
    [10.0.0.1]-[10.0.0.9] do on the malformed network text
    [10.0.0/24]. *)
Lemma bad_bounds_error_is_not_distinct :
  Spec.bad_bounds (host := lab) "10.0.0.250" "10.0.0.5"
  /\ ~ Spec.bad_bounds (host := lab) "10.0.1.1" "10.0.1.5"
  /\ ~ Spec.bad_bounds (host := lab) "10.0.0.1" "10.0.0.9"
  /\ start_sweep (host := lab) "10.0.0.0/24" "10.0.0.250" "10.0.0.5"
       1 1000 [] []
     = start_sweep (host := lab) "10.0.0.0/24" "10.0.1.1" "10.0.1.5"
         1 1000 [] []
  /\ start_sweep (host := lab) "10.0.0.0/24" "10.0.0.250" "10.0.0.5"
       1 1000 [] []
     = start_sweep (host := lab) "10.0.0/24" "10.0.0.1" "10.0.0.9"
         1 1000 [] [].
Proof.
  assert (Hgood : forall s e a b,
             ip_address (host := lab) s = Return a ->
             ip_address (host := lab) e = Return b ->
             _ip a <= _ip b -> ~ Spec.bad_bounds (host := lab) s e).
  { intros s e a b Ha Hb Hle [H|[H|(a' & b' & Ha' & Hb' & Hlt)]];
      try congruence.
    rewrite Ha in Ha'. rewrite Hb in Hb'.
    injection Ha' as <-. injection Hb' as <-. lia. }
  split.
  - right. right.
    exists (_address_class IPv4 167772410), (_address_class IPv4 167772165).
    split; [vm_compute; reflexivity|].
    split; [vm_compute; reflexivity|]. cbn. lia.
  - split.
    + apply (Hgood _ _ (_address_class IPv4 167772417)
               (_address_class IPv4 167772421));
        [vm_compute; reflexivity..|cbn; lia].
    + split.
      * apply (Hgood _ _ (_address_class IPv4 167772161)
                 (_address_class IPv4 167772169));
          [vm_compute; reflexivity..|cbn; lia].
      * split; vm_compute; reflexivity.
Qed.

(** C6, as the code has it. With both bounds given and readable, an
    interval that holds no usable host of the network makes
    [start_sweep] end with an error instead of an empty range; the error
    is the one it gives for unreadable or reversed bounds, so the caller
    sees no difference. *)
Theorem empty_range_rejected {host : Host} :
  forall (subnet start_ip end_ip : string) (count timeout : Z)
         (o r : list string) (a b : address),
    nonempty start_ip = true -> nonempty end_ip = true ->
    ip_address start_ip = Return a -> ip_address end_ip = Return b ->
    Spec.excludes_every_host subnet a b ->
    start_sweep subnet start_ip end_ip count timeout o r
    = inl Spec.invalid_range
    /\ forall start_ip' end_ip',
         nonempty start_ip' = true -> nonempty end_ip' = true ->
         Spec.bad_bounds start_ip' end_ip' ->
         start_sweep subnet start_ip' end_ip' count timeout o r
         = start_sweep subnet start_ip end_ip count timeout o r.
Proof.
  intros subnet start_ip end_ip count timeout o r a b H1 H2 Ha Hb Hout.
  assert (H : start_sweep subnet start_ip end_ip count timeout o r
              = inl Spec.invalid_range).
  { apply start_sweep_refused, (vacuous_bounds _ _ _ a b); assumption. }
  split; [exact H|].
  intros start_ip' end_ip' H1' H2' Hbad. rewrite H.
  apply start_sweep_refused, bad_bounds_refused; assumption.
Qed.

Lemma empty_range_rejected_witness :
  start_sweep (host := lab) "10.0.0.0/24" "10.0.1.1" "10.0.1.5" 1 1000 [] []
  = inl Spec.invalid_range.
Proof.
  refine (proj1 (empty_range_rejected (host := lab)
                   "10.0.0.0/24" "10.0.1.1" "10.0.1.5" 1 1000 [] []
                   (_address_class IPv4 167772417)
                   (_address_class IPv4 167772421) _ _ _ _ _)).
  - reflexivity.
  - reflexivity.
  - vm_compute. reflexivity.
  - vm_compute. reflexivity.
  - intros n h Hn Hh.
    assert (Hall : forallb (fun h => _ip h <? 167772417) (hosts n) = true).
    { injection Hn as <-. vm_compute. reflexivity. }
    rewrite forallb_forall in Hall. specialize (Hall h Hh).
    cbn [_ip _address_class]. lia.
Defined.

(** C6, as stated, fails: an interval that merely misses the network
    ([10.0.1.1]-[10.0.1.5] for [10.0.0.0/24]) ends the call exactly as
    reversed bounds and as an unreadable bound do. *)
Lemma empty_range_same_error_as_bad_bounds :
  start_sweep (host := lab) "10.0.0.0/24" "10.0.1.1" "10.0.1.5" 1 1000 [] []
  = start_sweep (host := lab) "10.0.0.0/24" "10.0.0.250" "10.0.0.5" 1 1000 [] []
  /\ start_sweep (host := lab) "10.0.0.0/24" "10.0.1.1" "10.0.1.5" 1 1000 [] []
     = start_sweep (host := lab) "10.0.0.0/24" "10.0.0.x" "10.0.0.5" 1 1000 [] []
  /\ ~ (exists e,
          start_sweep (host := lab) "10.0.0.0/24" "10.0.1.1" "10.0.1.5"
            1 1000 [] [] = inl e
          /\ start_sweep (host := lab) "10.0.0.0/24" "10.0.0.250" "10.0.0.5"
               1 1000 [] [] <> inl e).
Proof.
  split; [vm_compute; reflexivity|]. split; [vm_compute; reflexivity|].
  intros (e & He & Hne). apply Hne. rewrite <- He.
  vm_compute. reflexivity.
Qed.

(** C7, as the code has it. With both bounds given, readable and of the
    network's version (no scope ids), the range is the list of the
    network's usable hosts whose value lies within the bounds, and the
    call is refused exactly when that list is empty; whether the bounds
    themselves lie in the network plays no part. *)
Theorem bounded_range_is_interval_of_hosts {host : Host} :
  forall (subnet start_ip end_ip : string) (a0 a b : address) (p : Z),
    nonempty start_ip = true -> nonempty end_ip = true ->
    parse_network subnet = Some (a0, p) ->
    parse_address start_ip = Some a -> parse_address end_ip = Some b ->
    _version a = _version a0 -> _version b = _version a0 ->
    _scope_id a0 = None -> _scope_id a = None -> _scope_id b = None ->
    ip_range subnet start_ip end_ip
    = match filter (fun h => (_ip a <=? _ip h) && (_ip h <=? _ip b))
                   (hosts (make_network a0 p)) with
      | [] => inl (ValueError "Invalid IP range within subnet.")
      | l => inr l
      end.
Proof.
  intros subnet start_ip end_ip a0 a b p H1 H2 Hn Ha Hb Hva Hvb Hs0 Hsa Hsb.
  rewrite ip_range_bounded, get_ip_range_eq by assumption.
  unfold ip_network, ip_address. rewrite Hn, Ha, Hb. cbn [bind].
  rewrite (filter_raising_total _
             (fun h => (_ip a <=? _ip h) && (_ip h <=? _ip b))).
  - destruct (filter _ _); reflexivity.
  - intros h Hh. destruct (hosts_plain a0 h p Hh) as [Hv Hsc].
    specialize (Hsc Hs0). unfold within.
    rewrite (address_le_plain a h) by congruence. cbn [bind].
    destruct (_ip a <=? _ip h); [|reflexivity].
    rewrite (address_le_plain h b) by congruence. reflexivity.
Qed.

Lemma bounded_range_is_interval_of_hosts_witness :
  exists l,
    ip_range (host := lab) "10.0.0.0/24" "10.0.0.3" "10.0.0.7" = inr l
    /\ map _ip l = [167772163; 167772164; 167772165; 167772166; 167772167].
Proof.
  eexists. split.
  - rewrite (bounded_range_is_interval_of_hosts (host := lab)
               "10.0.0.0/24" "10.0.0.3" "10.0.0.7"
               (_address_class IPv4 167772160)
               (_address_class IPv4 167772163)
               (_address_class IPv4 167772167) 24);
      vm_compute; reflexivity.
  - reflexivity.
Defined.

(** C7, as stated, fails: the start [9.0.0.0] lies outside the host
    range of [10.0.0.0/24], and the call is not refused: the hosts
    [10.0.0.1] to [10.0.0.5] are about to be scanned. *)
Lemma bound_outside_network_is_scanned :
  exists n a s0,
    ip_network (host := lab) "10.0.0.0/24" = Return n
    /\ ip_address (host := lab) "9.0.0.0" = Return a
    /\ Spec.in_host_range n a = false
    /\ start_sweep (host := lab) "10.0.0.0/24" "9.0.0.0" "10.0.0.5"
         1 1000 [] [] = inr s0
    /\ map (str_address (Host := lab)) (to_submit s0)
       = ["10.0.0.1"; "10.0.0.2"; "10.0.0.3"; "10.0.0.4"; "10.0.0.5"].
Proof.
  eexists. eexists. eexists.
  split; [vm_compute; reflexivity|].
  split; [vm_compute; reflexivity|].
  split; [vm_compute; reflexivity|].
  split; [vm_compute; reflexivity|].
  vm_compute. reflexivity.
Qed.

(** C10. When one of the two bound fields is empty (or blank), the
    other is ignored: pressing the button does exactly what it does with
    both fields empty, a scan of the whole network. *)
Theorem single_bound_ignored {host : Host} :
  forall (subnet_entry start_ip_entry end_ip_entry
          count_entry timeout_entry : string) (o r : list string),
    strip start_ip_entry = "" \/ strip end_ip_entry = "" ->
    threaded_sweep subnet_entry start_ip_entry end_ip_entry
      count_entry timeout_entry o r
    = threaded_sweep subnet_entry "" "" count_entry timeout_entry o r.
Proof.
  intros subnet_entry start_ip_entry end_ip_entry count_entry timeout_entry
         o r H.
  unfold threaded_sweep.
  destruct (parse_int count_entry) as [count|]; [|reflexivity].
  destruct (parse_int timeout_entry) as [timeout|]; [|reflexivity].
  f_equal. unfold start_sweep, ip_range.
  assert (E : nonempty (strip start_ip_entry) && nonempty (strip end_ip_entry)
              = false).
  { destruct H as [-> | ->]; [reflexivity|apply andb_false_r]. }
  rewrite E. reflexivity.
Qed.

Lemma single_bound_ignored_witness :
  exists s0,
    threaded_sweep (host := lab) "192.168.1.0/30" "192.168.1.2" " " "1" "100"
      [] [] = Started (inr s0)
    /\ map (str_address (Host := lab)) (to_submit s0)
       = ["192.168.1.1"; "192.168.1.2"].
Proof.
  eexists. split.
  - rewrite (single_bound_ignored (host := lab)
               "192.168.1.0/30" "192.168.1.2" " " "1" "100" [] []).
    + vm_compute. reflexivity.
    + right. reflexivity.
  - vm_compute. reflexivity.
Defined.

(** ** The scan *)

(** C1. In every scan, at every moment, the number of calls of
    [ping_host] in flight is at most the size of the pool, for any pool
    size of one or more; the script's pool has [MAX_WORKERS] = 50
    threads. *)
Theorem in_flight_within_budget {host : Host} :
  forall (max_workers : nat) (subnet start_ip end_ip : string)
         (count timeout : Z) (o r : list string)
         (s0 : sweep_state) (events : list event) (s : sweep_state),
    (0 < max_workers)%nat ->
    start_sweep subnet start_ip end_ip count timeout o r = inr s0 ->
    run max_workers count timeout events s0 = Some s ->
    (List.length (in_flight s) <= max_workers)%nat.
Proof.
  intros max_workers subnet start_ip end_ip count timeout o r s0 events s
         Hw H0 Hrun.
  assert (Hs : consistent max_workers count timeout (to_submit s0) r s).
  { apply (run_consistent max_workers count timeout (to_submit s0) r Hw
             events s0 s); [|exact Hrun].
    apply (start_sweep_consistent max_workers subnet start_ip end_ip
             count timeout o r s0 H0). }
  destruct Hs as [_ [Hb1 Hb2] _ _ _]. lia.
Qed.

Lemma in_flight_within_budget_witness :
  MAX_WORKERS = 50%nat
  /\ exists s0 s,
       start_sweep (host := lab) "10.0.0.0/26" "" "" 1 1000 [] [] = inr s0
       /\ List.length (to_submit s0) = 62%nat
       /\ run (host := lab) MAX_WORKERS 1 1000 full_pool s0 = Some s
       /\ run (host := lab) MAX_WORKERS 1 1000 (full_pool ++ [Get]) s0 = None
       /\ (List.length (in_flight s) <= MAX_WORKERS)%nat.
Proof.
  split; [vm_compute; reflexivity|].
  eexists. eexists.
  split; [vm_compute; reflexivity|].
  split; [vm_compute; reflexivity|].
  split; [vm_compute; reflexivity|].
  split; [vm_compute; reflexivity|].
  refine (in_flight_within_budget (host := lab) MAX_WORKERS
            "10.0.0.0/26" "" "" 1 1000 [] [] _ full_pool _ _ _ _).
  - exact max_workers_pos.
  - vm_compute. reflexivity.
  - vm_compute. reflexivity.
Defined.

(** C2. A scan ends only in one way: every candidate has been probed
    and has given the loop exactly one result. Until then the scan can
    always go on, whatever the verdicts so far; no run is longer than
    four steps per candidate and one; and every scan can be run to its
    end. *)
Theorem scan_covers_every_candidate {host : Host} :
  forall (subnet start_ip end_ip : string) (count timeout : Z)
         (o r : list string) (s0 : sweep_state),
    start_sweep subnet start_ip end_ip count timeout o r = inr s0 ->
    (forall events s,
        run MAX_WORKERS count timeout events s0 = Some s ->
        (at_phase s = Complete ->
         Permutation (map Return (results s))
                     (map (fun ip => ping_host ip count timeout) (to_submit s0)))
        /\ (at_phase s <> Complete ->
            exists e s', step MAX_WORKERS count timeout e s = Some s')
        /\ (List.length events <= 4 * List.length (to_submit s0) + 1)%nat)
    /\ exists events s,
         run MAX_WORKERS count timeout events s0 = Some s
         /\ at_phase s = Complete.
Proof.
  intros subnet start_ip end_ip count timeout o r s0 H0.
  assert (Hs0 := start_sweep_consistent MAX_WORKERS _ _ _ _ _ _ _ _ H0).
  split.
  - intros events s Hrun.
    assert (Hs := run_consistent _ _ _ _ _ max_workers_pos _ _ _ Hs0 Hrun).
    split; [|split].
    + intros Ep. apply (complete_results _ _ _ _ _ s Hs Ep).
    + intros Ep. apply (progress _ _ _ _ _ s Hs).
      destruct Hs as [_ _ _ _ Hph].
      destruct (at_phase s); [reflexivity|congruence|contradiction].
    + assert (Hlen := run_remaining _ _ _ _ _ _ Hrun).
      assert (Hinit : remaining s0 = (4 * List.length (to_submit s0) + 1)%nat).
      { unfold start_sweep in H0.
        destruct (ip_range subnet start_ip end_ip); [discriminate|].
        injection H0 as <-. unfold remaining. cbn. lia. }
      lia.
  - apply (reach_complete _ _ _ _ _ max_workers_pos s0 Hs0).
Qed.

Lemma scan_covers_every_candidate_witness :
  exists s0 s,
    start_sweep (host := lab) "192.168.1.0/30" "" "" 1 100 [] [] = inr s0
    /\ run (host := lab) MAX_WORKERS 1 100 two_hosts s0 = Some s
    /\ at_phase s = Complete
    /\ results s = [("192.168.1.2", false); ("192.168.1.1", true)]
    /\ Permutation (map Return (results s))
         (map (fun ip => ping_host (host := lab) ip 1 100) (to_submit s0)).
Proof.
  eexists. eexists.
  split; [vm_compute; reflexivity|].
  split; [vm_compute; reflexivity|].
  split; [vm_compute; reflexivity|].
  split; [vm_compute; reflexivity|].
  refine (proj1 (proj1 (scan_covers_every_candidate (host := lab)
                   "192.168.1.0/30" "" "" 1 100 [] [] _ _) two_hosts _ _) _).
  - vm_compute. reflexivity.
  - vm_compute. reflexivity.
  - vm_compute. reflexivity.
Defined.

(** C3. When the [ping] command cannot be run for a candidate,
    [ping_host] returns the verdict down for it. A scan that holds this
    candidate is never left by an exception: from wherever it stands it
    can be run to its end, and there the candidate is reported as not
    responding. *)
Theorem ping_failure_is_down {host : Host} :
  forall (ip : address) (count timeout : Z),
    subprocess_run (ping_command ip count timeout) = Raise ->
    ping_host ip count timeout = Return (str_address ip, false)
    /\ forall (subnet start_ip end_ip : string) (o r : list string)
              (s0 : sweep_state) (events : list event) (s : sweep_state),
         start_sweep subnet start_ip end_ip count timeout o r = inr s0 ->
         In ip (to_submit s0) ->
         run MAX_WORKERS count timeout events s0 = Some s ->
         at_phase s <> Aborted
         /\ exists events' s',
              run MAX_WORKERS count timeout events' s = Some s'
              /\ at_phase s' = Complete
              /\ In (str_address ip, false) (results s').
Proof.
  intros ip count timeout Hfail.
  assert (Hdown : ping_host ip count timeout = Return (str_address ip, false)).
  { unfold ping_host. rewrite Hfail. reflexivity. }
  split; [exact Hdown|].
  intros subnet start_ip end_ip o r s0 events s H0 Hin Hrun.
  assert (Hs0 := start_sweep_consistent MAX_WORKERS _ _ _ _ _ _ _ _ H0).
  assert (Hs := run_consistent _ _ _ _ _ max_workers_pos _ _ _ Hs0 Hrun).
  split.
  - destruct Hs as [_ _ _ _ Hph]. intros Ep. rewrite Ep in Hph. exact Hph.
  - destruct (reach_complete _ _ _ _ _ max_workers_pos s Hs)
      as (events' & s' & Hrun' & Ep).
    exists events', s'. split; [exact Hrun'|]. split; [exact Ep|].
    assert (Hs' := run_consistent _ _ _ _ _ max_workers_pos _ _ _ Hs Hrun').
    assert (Hperm := complete_results _ _ _ _ _ s' Hs' Ep).
    assert (Hret : In (Return (str_address ip, false))
                      (map Return (results s'))).
    { apply (Permutation_in _ (Permutation_sym Hperm)).
      rewrite <- Hdown. unfold outcomes.
      apply (in_map (fun ip => ping_host ip count timeout)), Hin. }
    apply in_map_iff in Hret. destruct Hret as (x & Hx & Hxin).
    injection Hx as ->. exact Hxin.
Qed.

Lemma ping_failure_is_down_witness :
  exists ip s0 s,
    start_sweep (host := lab) "192.168.1.0/30" "" "" 1 100 [] [] = inr s0
    /\ In ip (to_submit s0)
    /\ subprocess_run (Host := lab) (ping_command (host := lab) ip 1 100) = Raise
    /\ ping_host (host := lab) ip 1 100 = Return ("192.168.1.2", false)
    /\ run (host := lab) MAX_WORKERS 1 100 two_hosts s0 = Some s
    /\ at_phase s = Complete
    /\ result_list s = ["192.168.1.1"].
Proof.
  exists (_address_class IPv4 3232235778). eexists. eexists.
  split; [vm_compute; reflexivity|].
  split; [right; left; reflexivity|].
  split; [vm_compute; reflexivity|].
  split.
  - refine (proj1 (ping_failure_is_down (host := lab)
                     (_address_class IPv4 3232235778) 1 100 _)).
    vm_compute. reflexivity.
  - split; [vm_compute; reflexivity|].
    split; vm_compute; reflexivity.
Defined.

(** C9, as the code has it. A scan cannot be cancelled: nothing but
    the five events of [event] happens in it. While it is under way the
    caller's [result_list] is untouched and a next step is always
    possible; it is left only when every candidate has reported, and
    only then does [result_list] receive the responsive hosts. *)
Theorem scan_reports_only_when_complete {host : Host} :
  forall (subnet start_ip end_ip : string) (count timeout : Z)
         (o r : list string) (s0 : sweep_state)
         (events : list event) (s : sweep_state),
    start_sweep subnet start_ip end_ip count timeout o r = inr s0 ->
    run MAX_WORKERS count timeout events s0 = Some s ->
    (at_phase s = Sweeping ->
     result_list s = r
     /\ exists e s', step MAX_WORKERS count timeout e s = Some s')
    /\ (at_phase s <> Sweeping ->
        at_phase s = Complete
        /\ List.length (results s) = List.length (to_submit s0)
        /\ result_list s = map fst (filter snd (results s))).
Proof.
  intros subnet start_ip end_ip count timeout o r s0 events s H0 Hrun.
  assert (Hs0 := start_sweep_consistent MAX_WORKERS _ _ _ _ _ _ _ _ H0).
  assert (Hs := run_consistent _ _ _ _ _ max_workers_pos _ _ _ Hs0 Hrun).
  split.
  - intros Ep. split.
    + destruct Hs as [_ _ _ _ Hph]. rewrite Ep in Hph. exact Hph.
    + apply (progress _ _ _ _ _ s Hs Ep).
  - intros Ep.
    assert (Ec : at_phase s = Complete).
    { destruct Hs as [_ _ _ _ Hph].
      destruct (at_phase s); [congruence|reflexivity|contradiction]. }
    split; [exact Ec|]. split.
    + apply (complete_length _ _ _ _ _ s Hs Ec).
    + destruct Hs as [_ _ _ Hresp Hph]. rewrite Ec in Hph.
      destruct Hph as [Hr _]. rewrite Hr. exact Hresp.
Qed.

Lemma scan_reports_only_when_complete_witness :
  exists s0 s,
    start_sweep (host := lab) "10.0.0.0/24" "10.0.0.1" "10.0.0.10"
      1 1000 [] ["old"] = inr s0
    /\ run (host := lab) MAX_WORKERS 1 1000 three_of_ten s0 = Some s
    /\ at_phase s = Sweeping
    /\ List.length (results s) = 3%nat
    /\ result_list s = ["old"].
Proof.
  eexists. eexists.
  split; [vm_compute; reflexivity|].
  split; [vm_compute; reflexivity|].
  split; [vm_compute; reflexivity|].
  split; [vm_compute; reflexivity|].
  refine (proj1 (proj1 (scan_reports_only_when_complete (host := lab)
                   "10.0.0.0/24" "10.0.0.1" "10.0.0.10" 1 1000 [] ["old"]
                   _ three_of_ten _ _ _) _)).
  - vm_compute. reflexivity.
  - vm_compute. reflexivity.
  - vm_compute. reflexivity.
Defined.

(** C9, as stated, fails. Ten candidates, three of them reported: the
    scan is under way, and no continuation of it ends with a report of
    just these three results. *)
Lemma no_partial_report_after_three_of_ten :
  exists s0 s3,
    start_sweep (host := lab) "10.0.0.0/24" "10.0.0.1" "10.0.0.10"
      1 1000 [] [] = inr s0
    /\ List.length (to_submit s0) = 10%nat
    /\ run (host := lab) MAX_WORKERS 1 1000 three_of_ten s0 = Some s3
    /\ List.length (results s3) = 3%nat
    /\ at_phase s3 = Sweeping
    /\ ~ exists events s',
           run (host := lab) MAX_WORKERS 1 1000 events s3 = Some s'
           /\ at_phase s' <> Sweeping
           /\ List.length (results s') = 3%nat.
Proof.
  eexists. eexists.
  split; [vm_compute; reflexivity|].
  split; [vm_compute; reflexivity|].
  split; [vm_compute; reflexivity|].
  split; [vm_compute; reflexivity|].
  split; [vm_compute; reflexivity|].
  intros (events & s' & Hrun & Hph & Hlen).
  assert (H10 : List.length (results s') = 10%nat).
  { refine (eq_trans
              (finished_scan_is_full (host := lab)
                 "10.0.0.0/24" "10.0.0.1" "10.0.0.10" 1 1000 [] []
                 _ three_of_ten _ events s' _ _ Hrun Hph) _).
    - vm_compute. reflexivity.
    - vm_compute. reflexivity.
    - vm_compute. reflexivity. }
  rewrite Hlen in H10. discriminate.
Qed.

(** * Further properties *)

Import Report Exporter.

(** ** More on range resolution *)

Lemma address_le_version (a b : address) (r : bool) :
  address_le a b = Return r -> _version a = _version b.
Proof.
  unfold address_le, address_lt.
  destruct (_version a), (_version b); cbn; congruence.
Qed.

Lemma within_version (a b h : address) :
  within a b h = Return true -> _version a = _version h /\ _version h = _version b.
Proof.
  unfold within. destruct (address_le a h) as [[|]|] eqn:E; cbn;
    try discriminate.
  intros H. split; eapply address_le_version; eassumption.
Qed.

(** What the bounded path accepts: a non-empty comprehension. *)
Lemma ip_range_bounded_inv {host : Host} (subnet start_ip end_ip : string)
    (l : list address) :
  nonempty start_ip = true -> nonempty end_ip = true ->
  ip_range subnet start_ip end_ip = inr l ->
  exists n a b,
    ip_network subnet = Return n /\ ip_address start_ip = Return a
    /\ ip_address end_ip = Return b
    /\ filter_raising (within a b) (hosts n) = Return l /\ l <> [].
Proof.
  intros H1 H2 H. rewrite ip_range_bounded, get_ip_range_eq in H by assumption.
  destruct (ip_network subnet) as [n|]; cbn in H; [|discriminate].
  destruct (ip_address start_ip) as [a|]; cbn in H; [|discriminate].
  destruct (ip_address end_ip) as [b|]; cbn in H; [|discriminate].
  destruct (filter_raising (within a b) (hosts n)) as [r|] eqn:Hf; cbn in H;
    [|discriminate].
  destruct r as [|x r]; cbn in H; [discriminate|]. injection H as <-.
  exists n, a, b. repeat (split; [reflexivity|]).
  split; [exact Hf|discriminate].
Qed.

(** Every accepted range is drawn from the hosts of the network. *)
Lemma ip_range_incl {host : Host} (subnet start_ip end_ip : string)
    (l : list address) :
  ip_range subnet start_ip end_ip = inr l ->
  exists n, ip_network subnet = Return n /\ incl l (hosts n).
Proof.
  intros H. destruct (nonempty start_ip && nonempty end_ip) eqn:E.
  - apply andb_true_iff in E. destruct E as [H1 H2].
    destruct (ip_range_bounded_inv _ _ _ _ H1 H2 H)
      as (n & a & b & Hn & _ & _ & Hf & _).
    exists n. split; [exact Hn|]. intros h Hh.
    apply (filter_raising_in _ _ _ Hf h), Hh.
  - unfold ip_range in H. rewrite E in H.
    destruct (ip_network subnet) as [n|]; [|discriminate].
    injection H as <-. exists n. split; [reflexivity|apply incl_refl].
Qed.

(** X1. Bounds of another IP version than the network are refused. *)
Theorem mixed_versions_rejected {host : Host} :
  forall (subnet start_ip end_ip : string) (a0 a b : address) (p : Z),
    nonempty start_ip = true -> nonempty end_ip = true ->
    parse_network subnet = Some (a0, p) ->
    parse_address start_ip = Some a -> parse_address end_ip = Some b ->
    _version a <> _version a0 \/ _version b <> _version a0 ->
    ip_range subnet start_ip end_ip
    = inl (ValueError "Invalid IP range within subnet.").
Proof.
  intros subnet start_ip end_ip a0 a b p H1 H2 Hn Ha Hb Hv.
  rewrite ip_range_bounded, get_ip_range_eq by assumption.
  unfold ip_network, ip_address. rewrite Hn, Ha, Hb. cbn [bind].
  destruct (filter_raising _ _) as [l|] eqn:Hf; [|reflexivity].
  rewrite (filter_raising_none _ _ _ Hf); [reflexivity|].
  intros h Hh Hw. destruct (hosts_plain a0 h p Hh) as [Hvh _].
  destruct (within_version a b h Hw) as [E1 E2].
  destruct Hv as [Hv|Hv]; apply Hv; congruence.
Qed.

Lemma mixed_versions_rejected_witness :
  ip_range (host := lab) "10.0.0.0/24" "10.0.0.1" "::1"
  = inl (ValueError "Invalid IP range within subnet.").
Proof.
  refine (mixed_versions_rejected (host := lab)
            "10.0.0.0/24" "10.0.0.1" "::1"
            (_address_class IPv4 167772160) (_address_class IPv4 167772161)
            (_address_class IPv6 1) 24 _ _ _ _ _ _).
  - reflexivity.
  - reflexivity.
  - vm_compute. reflexivity.
  - vm_compute. reflexivity.
  - vm_compute. reflexivity.
  - right. discriminate.
Defined.

(** X2. Every candidate of a bounded scan is a usable host of the
    network, lies between the two bounds, and is of their version. *)
Theorem bounded_candidates_within_bounds {host : Host} :
  forall (subnet start_ip end_ip : string) (l : list address),
    nonempty start_ip = true -> nonempty end_ip = true ->
    ip_range subnet start_ip end_ip = inr l ->
    exists n a b,
      ip_network subnet = Return n
      /\ ip_address start_ip = Return a /\ ip_address end_ip = Return b
      /\ l <> []
      /\ forall h, In h l ->
           In h (hosts n) /\ _ip a <= _ip h <= _ip b
           /\ _version a = _version h /\ _version h = _version b.
Proof.
  intros subnet start_ip end_ip l H1 H2 H.
  destruct (ip_range_bounded_inv _ _ _ _ H1 H2 H)
    as (n & a & b & Hn & Ha & Hb & Hf & Hne).
  exists n, a, b. repeat (split; [assumption|]).
  intros h Hh. apply (filter_raising_in _ _ _ Hf h) in Hh.
  destruct Hh as [Hin Hw]. split; [exact Hin|].
  split; [apply within_true, Hw|apply within_version, Hw].
Qed.

Lemma bounded_candidates_within_bounds_witness :
  exists l h,
    ip_range (host := lab) "10.0.0.0/24" "9.0.0.0" "10.0.0.5" = inr l
    /\ In h l
    /\ _ip h = 167772163.
Proof.
  destruct (bounded_candidates_within_bounds (host := lab)
              "10.0.0.0/24" "9.0.0.0" "10.0.0.5"
              (map (_address_class IPv4) (range 167772161 167772166)))
    as (n & a & b & Hn & Ha & Hb & _ & Hall).
  - reflexivity.
  - reflexivity.
  - vm_compute. reflexivity.
  - exists (map (_address_class IPv4) (range 167772161 167772166)),
           (_address_class IPv4 167772163).
    split; [vm_compute; reflexivity|].
    assert (Hin : In (_address_class IPv4 167772163)
                     (map (_address_class IPv4) (range 167772161 167772166)))
      by (vm_compute; right; right; left; reflexivity).
    split; [exact Hin|].
    destruct (Hall _ Hin) as (_ & _ & _). reflexivity.
Defined.

(** X3. A network text that cannot be read ends the call before any
    scan: with the library's own error when no bound pair is given,
    with the script's error when both bounds are given, whatever the
    bounds. *)
Theorem malformed_network_rejected {host : Host} :
  forall (subnet start_ip end_ip : string) (count timeout : Z)
         (o r : list string),
    parse_network subnet = None ->
    start_sweep subnet start_ip end_ip count timeout o r
    = inl (if nonempty start_ip && nonempty end_ip
           then ValueError "Invalid IP range within subnet."
           else NetworkValueError subnet).
Proof.
  intros subnet start_ip end_ip count timeout o r Hn.
  apply start_sweep_refused. unfold ip_range.
  destruct (nonempty start_ip && nonempty end_ip).
  - rewrite get_ip_range_eq. unfold ip_network. rewrite Hn. reflexivity.
  - unfold ip_network. rewrite Hn. reflexivity.
Qed.

Lemma malformed_network_rejected_witness :
  start_sweep (host := lab) "10.0.0/24" "" "" 1 1000 [] []
  = inl (NetworkValueError "10.0.0/24")
  /\ start_sweep (host := lab) "10.0.0/24" "10.0.0.1" "10.0.0.9" 1 1000 [] []
     = inl (ValueError "Invalid IP range within subnet.").
Proof.
  split.
  - refine (malformed_network_rejected (host := lab)
              "10.0.0/24" "" "" 1 1000 [] [] _).
    vm_compute. reflexivity.
  - refine (malformed_network_rejected (host := lab)
              "10.0.0/24" "10.0.0.1" "10.0.0.9" 1 1000 [] [] _).
    vm_compute. reflexivity.
Defined.

Lemma range_length (lo hi : Z) : List.length (range lo hi) = Z.to_nat (hi - lo).
Proof. unfold range. rewrite length_map, length_seq. reflexivity. Qed.

(** The addresses of a network read from a text are addresses of its
    version. *)
Lemma network_span (a : address) (p : Z) :
  Spec.well_formed a p ->
  0 <= Spec.first_address (make_network a p)
  /\ Spec.last_address (make_network a p) <= _ALL_ONES (_version a)
  /\ 0 < Spec.num_addresses (make_network a p).
Proof.
  intros Hwf. pose proof Hwf as [Ha Hp].
  unfold Spec.last_address. rewrite make_network_first, make_network_num by exact Hwf.
  set (m := _max_prefixlen (_version a)) in *.
  set (h := m - p).
  assert (Hh : 0 <= h <= m) by (subst h; lia).
  assert (Hpow : 0 < 2 ^ h) by (apply Z.pow_pos_nonneg; lia).
  assert (Hk : 0 <= _ip a / 2 ^ h) by (apply Z.div_pos; lia).
  assert (Hm : 2 ^ m = 2 ^ h * 2 ^ (m - h))
    by (rewrite <- Z.pow_add_r by lia; f_equal; lia).
  assert (Hlt : _ip a / 2 ^ h < 2 ^ (m - h)).
  { apply Z.div_lt_upper_bound; [exact Hpow|].
    unfold _ALL_ONES in Ha. fold m in Ha. lia. }
  unfold _ALL_ONES. fold m. split; [nia|]. split; [nia|exact Hpow].
Qed.

Lemma usable_hosts_span (n : network) (x : Z) :
  In x (Spec.usable_hosts n) \/ In x (Spec.usable_hosts_ipv6 n) ->
  Spec.first_address n <= x <= Spec.last_address n.
Proof.
  assert (Hall : In x (Spec.all_addresses n) ->
                 Spec.first_address n <= x <= Spec.last_address n).
  { unfold Spec.all_addresses, Spec.last_address. rewrite in_range. lia. }
  unfold Spec.usable_hosts, Spec.usable_hosts_ipv6.
  destruct (2 <? Spec.num_addresses n); intros [H|H];
    try (apply filter_In in H; destruct H as [H _]); apply Hall, H.
Qed.

(** X4. A scan never leaves the network: every candidate, with or
    without bounds, lies between the first and the last address of the
    network read from the text, and is an address of its version. *)
Theorem candidates_inside_network {host : Host} :
  forall (subnet start_ip end_ip : string) (a : address) (p : Z)
         (l : list address),
    parse_network subnet = Some (a, p) -> Spec.well_formed a p ->
    ip_range subnet start_ip end_ip = inr l ->
    forall h, In h l ->
      Spec.first_address (make_network a p) <= _ip h
                                            <= Spec.last_address (make_network a p)
      /\ _version h = _version a
      /\ 0 <= _ip h <= _ALL_ONES (_version a).
Proof.
  intros subnet start_ip end_ip a p l Hn Hwf H h Hh.
  destruct (ip_range_incl _ _ _ _ H) as (n & En & Hincl).
  unfold ip_network in En. rewrite Hn in En. injection En as <-.
  apply Hincl in Hh.
  assert (Hspan : Spec.first_address (make_network a p) <= _ip h
                  <= Spec.last_address (make_network a p)).
  { apply usable_hosts_span.
    assert (Hv := hosts_values a p Hwf).
    assert (Hin : In (_ip h) (map _ip (hosts (make_network a p))))
      by (apply in_map, Hh).
    rewrite Hv in Hin. destruct (_version a); [left|right]; exact Hin. }
  destruct (network_span a p Hwf) as (H0 & H1 & _).
  split; [exact Hspan|]. split; [apply (hosts_plain a h p Hh)|lia].
Qed.

Lemma candidates_inside_network_witness :
  exists l h,
    ip_range (host := lab) "192.168.1.77/29" "" "" = inr l
    /\ In h l
    /\ 3232235848 <= _ip h <= 3232235855.
Proof.
  exists (map (_address_class IPv4) (range 3232235849 3232235855)),
         (_address_class IPv4 3232235850).
  split; [vm_compute; reflexivity|].
  split; [vm_compute; right; left; reflexivity|].
  refine (proj1 (candidates_inside_network (host := lab)
                   "192.168.1.77/29" "" "" (_address_class IPv4 3232235853) 29
                   (map (_address_class IPv4) (range 3232235849 3232235855))
                   _ _ _ (_address_class IPv4 3232235850) _)).
  - vm_compute. reflexivity.
  - unfold Spec.well_formed. cbn. lia.
  - vm_compute. reflexivity.
  - vm_compute. right. left. reflexivity.
Defined.

(** X5. The number of candidates of a scan without bounds: all the
    addresses of a network of one or two addresses; otherwise two less
    than the network holds for IPv4, one less for IPv6. *)
Theorem unbounded_candidate_count {host : Host} :
  forall (subnet : string) (a : address) (p : Z) (l : list address),
    parse_network subnet = Some (a, p) -> Spec.well_formed a p ->
    ip_range subnet "" "" = inr l ->
    Z.of_nat (List.length l)
    = let num := 2 ^ (_max_prefixlen (_version a) - p) in
      if 2 <? num
      then match _version a with IPv4 => num - 2 | IPv6 => num - 1 end
      else num.
Proof.
  intros subnet a p l Hn Hwf H.
  unfold ip_range, ip_network in H. cbn in H. rewrite Hn in H.
  injection H as <-.
  rewrite <- (length_map _ip), (hosts_values a p Hwf).
  destruct (network_span a p Hwf) as (_ & _ & Hnum).
  unfold Spec.usable_hosts, Spec.usable_hosts_ipv6, Spec.all_addresses,
    Spec.last_address.
  rewrite make_network_num in *.
  set (num := 2 ^ (_max_prefixlen (_version a) - p)) in *.
  set (f := Spec.first_address (make_network a p)).
  cbv zeta.
  destruct (Z.ltb_spec 2 num) as [Hbig|Hsmall].
  - destruct (_version a).
    + rewrite (range_drop_ends f (f + num)) by lia.
      rewrite range_length. lia.
    + rewrite range_drop_first by lia. rewrite range_length. lia.
  - destruct (_version a); rewrite range_length; lia.
Qed.

Lemma unbounded_candidate_count_witness :
  exists l,
    ip_range (host := lab) "10.0.0.0/26" "" "" = inr l
    /\ Z.of_nat (List.length l) = 62.
Proof.
  eexists. split; [vm_compute; reflexivity|].
  refine (eq_trans
            (unbounded_candidate_count (host := lab) "10.0.0.0/26"
               (_address_class IPv4 167772160) 26 _ _ _ _) _).
  - vm_compute. reflexivity.
  - unfold Spec.well_formed. cbn. lia.
  - vm_compute. reflexivity.
  - vm_compute. reflexivity.
Defined.

Lemma network_address_value (a : address) (p : Z) :
  _ip (network_address (make_network a p))
  = Z.land (_ip a) (_ip_int_from_prefix (_version a) p).
Proof.
  unfold make_network. cbn.
  destruct (Z.eqb_spec (Z.land (_ip a) (_ip_int_from_prefix (_version a) p))
              (_ip a)) as [E|E]; cbn; [symmetry; exact E|reflexivity].
Qed.

(** X6. Host bits in the network text do not matter: two texts with the
    same prefix length whose addresses agree on the network bits give
    the same range, for any bounds. *)
Theorem host_bits_ignored {host : Host} :
  forall (subnet subnet' start_ip end_ip : string) (a a' : address) (p : Z),
    parse_network subnet = Some (a, p) ->
    parse_network subnet' = Some (a', p) ->
    _version a = _version a' ->
    p < _max_prefixlen (_version a) ->
    Z.land (_ip a) (_ip_int_from_prefix (_version a) p)
    = Z.land (_ip a') (_ip_int_from_prefix (_version a) p) ->
    ip_range subnet start_ip end_ip = ip_range subnet' start_ip end_ip.
Proof.
  intros subnet subnet' start_ip end_ip a a' p Hn Hn' Hv Hp Hbits.
  assert (Hhosts : hosts (make_network a p) = hosts (make_network a' p)).
  { unfold hosts, __iter__, broadcast_address, hostmask, netmask.
    rewrite !make_network_version, !network_address_value, <- Hv, <- Hbits.
    change (_prefixlen (make_network a p)) with p.
    change (_prefixlen (make_network a' p)) with p.
    destruct (p =? _max_prefixlen (_version a) - 1); [reflexivity|].
    destruct (Z.eqb_spec p (_max_prefixlen (_version a))); [lia|].
    reflexivity. }
  unfold ip_range. rewrite !get_ip_range_eq. unfold ip_network.
  rewrite Hn, Hn'. cbn [bind]. rewrite Hhosts. reflexivity.
Qed.

Lemma host_bits_ignored_witness :
  ip_range (host := lab) "192.168.1.77/29" "" ""
  = ip_range (host := lab) "192.168.1.72/29" "" "".
Proof.
  refine (host_bits_ignored (host := lab)
            "192.168.1.77/29" "192.168.1.72/29" "" ""
            (_address_class IPv4 3232235853) (_address_class IPv4 3232235848)
            29 _ _ _ _ _).
  - vm_compute. reflexivity.
  - vm_compute. reflexivity.
  - reflexivity.
  - cbn. lia.
  - vm_compute. reflexivity.
Defined.

(** ** The fields of the window *)

Lemma rstrip_blank (w : string) : blank w = true -> rstrip w = "".
Proof.
  induction w as [|c w IH]; cbn; [reflexivity|].
  intros H. apply andb_true_iff in H. destruct H as [Hc Hw].
  rewrite (IH Hw), Hc. reflexivity.
Qed.

Lemma rstrip_app_blank (s w : string) :
  blank w = true -> rstrip (s +++ w) = rstrip s.
Proof.
  intros Hw. induction s as [|c s IH]; cbn.
  - apply rstrip_blank, Hw.
  - rewrite IH. reflexivity.
Qed.

Lemma lstrip_blank_app (w s : string) :
  blank w = true -> lstrip (w +++ s) = lstrip s.
Proof.
  induction w as [|c w IH]; cbn; [reflexivity|].
  intros H. apply andb_true_iff in H. destruct H as [Hc Hw].
  rewrite Hc. apply IH, Hw.
Qed.

Lemma lstrip_blank (w : string) : blank w = true -> lstrip w = "".
Proof.
  induction w as [|c w IH]; cbn; [reflexivity|].
  intros H. apply andb_true_iff in H. destruct H as [Hc Hw].
  rewrite Hc. apply IH, Hw.
Qed.

Lemma blank_app (s w : string) :
  blank s = true -> blank w = true -> blank (s +++ w) = true.
Proof.
  intros Hs Hw. induction s as [|c s IH]; cbn; [exact Hw|].
  cbn in Hs. apply andb_true_iff in Hs. destruct Hs as [Hc Hs].
  rewrite Hc. apply IH, Hs.
Qed.

(** Either the text is blank, or stripping it on the left leaves what
    follows untouched. *)
Lemma lstrip_app (s w : string) :
  blank s = true \/ lstrip (s +++ w) = lstrip s +++ w.
Proof.
  induction s as [|c s IH]; cbn; [left; reflexivity|].
  destruct (isspace c); cbn; [exact IH|right; reflexivity].
Qed.

Lemma strip_blanks (w1 s w2 : string) :
  blank w1 = true -> blank w2 = true -> strip (w1 +++ s +++ w2) = strip s.
Proof.
  intros H1 H2. unfold strip. rewrite lstrip_blank_app by exact H1.
  destruct (lstrip_app s w2) as [Hs|Hs].
  - rewrite (lstrip_blank s Hs), (lstrip_blank _ (blank_app s w2 Hs H2)).
    reflexivity.
  - rewrite Hs. apply rstrip_app_blank, H2.
Qed.

(** X7. White space around the texts of the three address fields does
    not matter. *)
Theorem surrounding_blanks_ignored {host : Host} :
  forall (w1 w2 w3 w4 w5 w6 subnet start_ip end_ip
          count_entry timeout_entry : string) (o r : list string),
    blank w1 = true -> blank w2 = true -> blank w3 = true ->
    blank w4 = true -> blank w5 = true -> blank w6 = true ->
    threaded_sweep (w1 +++ subnet +++ w2) (w3 +++ start_ip +++ w4)
      (w5 +++ end_ip +++ w6) count_entry timeout_entry o r
    = threaded_sweep subnet start_ip end_ip count_entry timeout_entry o r.
Proof.
  intros w1 w2 w3 w4 w5 w6 subnet start_ip end_ip count_entry timeout_entry
         o r H1 H2 H3 H4 H5 H6.
  unfold threaded_sweep. rewrite !strip_blanks by assumption. reflexivity.
Qed.

Lemma surrounding_blanks_ignored_witness :
  threaded_sweep (host := lab) "  192.168.1.0/30 " " 192.168.1.1" "192.168.1.2  "
    "1" "100" [] []
  = threaded_sweep (host := lab) "192.168.1.0/30" "192.168.1.1" "192.168.1.2"
      "1" "100" [] [].
Proof.
  refine (surrounding_blanks_ignored (host := lab)
            "  " " " " " "" "" "  "
            "192.168.1.0/30" "192.168.1.1" "192.168.1.2" "1" "100" [] []
            _ _ _ _ _ _); reflexivity.
Defined.

(** ** More on the scan *)

Ltac state_fields :=
  cbn [to_submit _work_queue in_flight _threads _idle_semaphore finished
       results responsive_hosts output_text result_list at_phase].

Section ScanOrder.

Context {host : Host}.

Variable max_workers : nat.
Variables count timeout : Z.
Variable candidates : list address.
Variable result_list0 : list string.
Variable log0 : list string.

Local Abbreviation step' := (step max_workers count timeout).
Local Abbreviation run' := (run max_workers count timeout).
Local Abbreviation ok :=
  (consistent max_workers count timeout candidates result_list0).
Local Abbreviation tidy := (orderly candidates log0).

(** No finished future holds an exception. *)
Lemma finished_never_raise s :
  ok s -> ~ In Raise (finished s).
Proof.
  intros Hs Hin. assert (Hacc := accounted _ _ _ _ _ s Hs Raise).
  unfold held in Hacc. rewrite !outcomes_never_raise in Hacc.
  apply (count_occ_In outcome_eq_dec) in Hin.
  unfold occurrences in Hacc. lia.
Qed.

Lemma adjust_thread_count_le idle threads sem threads' :
  _adjust_thread_count max_workers idle threads = (sem, threads') ->
  (threads' <= S threads)%nat.
Proof.
  unfold _adjust_thread_count.
  destruct (0 <? idle)%nat; [intros H; injection H as <- <-; lia|].
  destruct (threads <? max_workers)%nat; intros H; injection H as <- <-; lia.
Qed.

Lemma step_orderly e s s' : ok s -> tidy s -> step' e s = Some s' -> tidy s'.
Proof.
  intros Hs [(started & Hc & Hl) Ht Hlog] H.
  destruct e; cbn [step] in H.
  - (* Submit *)
    destruct (to_submit s) as [|ip rest] eqn:Et; [discriminate|].
    destruct (sweeping (at_phase s)) eqn:Ep; [|discriminate].
    destruct (_adjust_thread_count _ _ _) as [sem threads] eqn:E.
    apply adjust_thread_count_le in E.
    injection H as <-. constructor; state_fields.
    + exists started. split; [|exact Hl].
      rewrite Hc, <- app_assoc. reflexivity.
    + cbn [List.length] in Ht. lia.
    + exact Hlog.
  - (* Get *)
    destruct (_work_queue s) as [|ip queue] eqn:Eq; [discriminate|].
    destruct (_ <? _)%nat; [|discriminate].
    injection H as <-. constructor; state_fields.
    + exists (started ++ [ip]). split.
      * rewrite Hc, <- app_assoc. reflexivity.
      * rewrite !length_app. cbn [List.length]. lia.
    + exact Ht.
    + exact Hlog.
  - (* Done *)
    destruct (nth_error (in_flight s) k) as [ip|] eqn:Ek; [|discriminate].
    injection H as <-. constructor; state_fields.
    + exists started. split; [exact Hc|].
      rewrite length_app. rewrite (remove_nth_length k _ _ Ek) in Hl.
      cbn [List.length]. lia.
    + exact Ht.
    + exact Hlog.
  - (* Yield *)
    destruct (sweeping (at_phase s)) eqn:Ep; [|discriminate].
    destruct (is_nil (to_submit s)); [|discriminate]. cbn [andb] in H.
    assert (Hph : complete (at_phase s) = false)
      by (destruct (at_phase s); [reflexivity|discriminate..]).
    rewrite Hph, app_nil_r in Hlog.
    destruct (nth_error (finished s) k) as [[[ip is_up]|]|] eqn:Ek;
      [| |discriminate].
    + injection H as <-. constructor; state_fields.
      * exists started. split; [exact Hc|].
        rewrite length_app. rewrite (remove_nth_length k _ _ Ek) in Hl.
        cbn [List.length]. lia.
      * exact Ht.
      * rewrite Hph, app_nil_r, map_app, app_assoc, <- Hlog.
        destruct is_up; reflexivity.
    + exfalso. apply (finished_never_raise s Hs).
      apply (nth_error_In _ k), Ek.
  - (* Exit *)
    destruct (sweeping (at_phase s)) eqn:Ep; [|discriminate].
    destruct (_ && _ && _ && _); [|discriminate]. cbn [andb] in H.
    assert (Hph : complete (at_phase s) = false)
      by (destruct (at_phase s); [reflexivity|discriminate..]).
    rewrite Hph, app_nil_r in Hlog.
    injection H as <-. constructor; state_fields.
    + exists started. split; assumption.
    + exact Ht.
    + cbn [complete]. rewrite app_assoc, <- Hlog.
      unfold update_output, closing_lines. rewrite <- app_assoc. reflexivity.
Qed.

Hypothesis workers : (0 < max_workers)%nat.

Lemma run_orderly events s s' :
  ok s -> tidy s -> run' events s = Some s' -> tidy s'.
Proof.
  revert s. induction events as [|e events IH]; intros s Hs Ht H; cbn in H.
  - injection H as <-. exact Ht.
  - destruct (step' e s) as [s1|] eqn:E; [|discriminate].
    apply (IH s1); [| |exact H].
    + apply (step_consistent _ _ _ _ _ workers e s); assumption.
    + apply (step_orderly e s); assumption.
Qed.

End ScanOrder.

Lemma start_sweep_orderly {host : Host}
    (subnet start_ip end_ip : string) (count timeout : Z)
    (o r : list string) (s0 : sweep_state) :
  start_sweep subnet start_ip end_ip count timeout o r = inr s0 ->
  orderly (to_submit s0)
    (o ++ opening_lines subnet start_ip end_ip count timeout) s0.
Proof.
  unfold start_sweep. destruct (ip_range subnet start_ip end_ip) as [e|l];
    [discriminate|].
  intros H. injection H as <-. constructor; state_fields.
  - exists []. split; reflexivity.
  - cbn. lia.
  - cbn [complete map]. rewrite !app_nil_r.
    unfold update_output, opening_lines. rewrite <- !app_assoc. reflexivity.
Qed.

(** Where a scan stands, with both of its invariants. *)
Lemma scan_state {host : Host}
    (subnet start_ip end_ip : string) (count timeout : Z)
    (o r : list string) (s0 : sweep_state) (events : list event)
    (s : sweep_state) :
  start_sweep subnet start_ip end_ip count timeout o r = inr s0 ->
  run MAX_WORKERS count timeout events s0 = Some s ->
  consistent MAX_WORKERS count timeout (to_submit s0) r s
  /\ orderly (to_submit s0)
       (o ++ opening_lines subnet start_ip end_ip count timeout) s.
Proof.
  intros H0 Hrun.
  assert (Hs0 := start_sweep_consistent MAX_WORKERS _ _ _ _ _ _ _ _ H0).
  assert (Ht0 := start_sweep_orderly _ _ _ _ _ _ _ _ H0).
  split.
  - apply (run_consistent _ _ _ _ _ max_workers_pos _ _ _ Hs0 Hrun).
  - apply (run_orderly _ _ _ _ r _ max_workers_pos _ _ _ Hs0 Ht0 Hrun).
Qed.

Lemma permutation_filter {A : Type} (p : A -> bool) (l l' : list A) :
  Permutation l l' -> Permutation (filter p l) (filter p l').
Proof.
  induction 1 as [|x l l' _ IH|x y l|l l' l'' _ IH1 _ IH2]; cbn.
  - constructor.
  - destruct (p x); [constructor|]; exact IH.
  - destruct (p x), (p y); try reflexivity. apply perm_swap.
  - exact (perm_trans IH1 IH2).
Qed.

Lemma map_Return_inj {A : Type} (l l' : list A) :
  map Return l = map Return l' -> l = l'.
Proof.
  revert l'. induction l as [|x l IH]; intros [|y l'] H; cbn in H;
    try discriminate; [reflexivity|].
  injection H as -> H. f_equal. apply IH, H.
Qed.

Lemma ping_host_answers {host : Host} (ip : address) (count timeout : Z) :
  ping_host ip count timeout
  = Return (str_address ip, answers count timeout ip).
Proof.
  unfold ping_host, answers. destruct (subprocess_run _); reflexivity.
Qed.

Lemma responsive_of_candidates {host : Host} (count timeout : Z)
    (l : list address) :
  map fst (filter snd
             (map (fun ip => (str_address ip, answers count timeout ip)) l))
  = map str_address (filter (answers count timeout) l).
Proof.
  induction l as [|ip l IH]; cbn; [reflexivity|].
  destruct (answers count timeout ip); cbn; rewrite IH; reflexivity.
Qed.

(** The caller's list at the end of a scan. *)
Lemma complete_result_list {host : Host} (count timeout : Z)
    (candidates : list address) (r : list string) (s : sweep_state) :
  consistent MAX_WORKERS count timeout candidates r s ->
  at_phase s = Complete ->
  Permutation (result_list s)
    (map str_address (filter (answers count timeout) candidates)).
Proof.
  intros Hs Ep.
  assert (Hresp := responsive _ _ _ _ _ s Hs).
  assert (Hph := phased _ _ _ _ _ s Hs). rewrite Ep in Hph.
  destruct Hph as [Hr _].
  rewrite Hr, Hresp, <- responsive_of_candidates.
  apply Permutation_map, permutation_filter.
  assert (Hperm := complete_results _ _ _ _ _ s Hs Ep).
  unfold outcomes in Hperm.
  rewrite (map_ext _ (fun ip => Return (str_address ip, answers count timeout ip)))
    in Hperm by (intros ip; apply ping_host_answers).
  rewrite <- (map_map (fun ip => (str_address ip, answers count timeout ip))
                Return) in Hperm.
  apply Permutation_map_inv in Hperm. destruct Hperm as (l3 & E & Hperm).
  apply map_Return_inj in E. subst l3. symmetry. exact Hperm.
Qed.

(** X8. At every moment of a scan [responsive_hosts] holds the
    addresses reported up so far, in the order they were reported. At
    the end [result_list] holds just these, whatever it held before:
    the texts of the candidates for which [ping] returned 0, each once,
    in the order of arrival. *)
Theorem result_list_is_responsive_hosts {host : Host} :
  forall (subnet start_ip end_ip : string) (count timeout : Z)
         (o r : list string) (s0 : sweep_state)
         (events : list event) (s : sweep_state),
    start_sweep subnet start_ip end_ip count timeout o r = inr s0 ->
    run MAX_WORKERS count timeout events s0 = Some s ->
    responsive_hosts s = map fst (filter snd (results s))
    /\ (at_phase s = Complete ->
        result_list s = responsive_hosts s
        /\ Permutation (result_list s)
             (map str_address
                (filter (answers count timeout) (to_submit s0)))).
Proof.
  intros subnet start_ip end_ip count timeout o r s0 events s H0 Hrun.
  destruct (scan_state _ _ _ _ _ _ _ _ _ _ H0 Hrun) as [Hs _].
  assert (Hresp := responsive _ _ _ _ _ s Hs).
  split; [exact Hresp|]. intros Ep.
  assert (Hph := phased _ _ _ _ _ s Hs). rewrite Ep in Hph.
  destruct Hph as [Hr _]. split; [exact Hr|].
  apply (complete_result_list _ _ _ _ s Hs Ep).
Qed.

Lemma result_list_is_responsive_hosts_witness :
  exists s0 s,
    start_sweep (host := lab) "192.168.1.0/30" "" "" 1 100 [] ["old"] = inr s0
    /\ run (host := lab) MAX_WORKERS 1 100 two_hosts s0 = Some s
    /\ result_list s = ["192.168.1.1"]
    /\ responsive_hosts s = map fst (filter snd (results s)).
Proof.
  eexists. eexists.
  split; [vm_compute; reflexivity|].
  split; [vm_compute; reflexivity|].
  split; [vm_compute; reflexivity|].
  refine (proj1 (result_list_is_responsive_hosts (host := lab)
                   "192.168.1.0/30" "" "" 1 100 [] ["old"] _ two_hosts _ _ _)).
  - vm_compute. reflexivity.
  - vm_compute. reflexivity.
Defined.

(** X9. The log of a scan: what the widget held before, the four
    opening texts, one text per handled result in the order of arrival,
    and, once the scan is complete, the two closing texts with the
    number of responsive hosts. *)
Theorem log_of_a_scan {host : Host} :
  forall (subnet start_ip end_ip : string) (count timeout : Z)
         (o r : list string) (s0 : sweep_state)
         (events : list event) (s : sweep_state),
    start_sweep subnet start_ip end_ip count timeout o r = inr s0 ->
    run MAX_WORKERS count timeout events s0 = Some s ->
    output_text s
    = o ++ opening_lines subnet start_ip end_ip count timeout
        ++ map result_line (results s)
        ++ (if complete (at_phase s)
            then closing_lines (responsive_hosts s) else []).
Proof.
  intros subnet start_ip end_ip count timeout o r s0 events s H0 Hrun.
  destruct (scan_state _ _ _ _ _ _ _ _ _ _ H0 Hrun) as [_ Ht].
  rewrite (logged _ _ s Ht), <- app_assoc. reflexivity.
Qed.

Lemma log_of_a_scan_witness :
  exists s0 s,
    start_sweep (host := lab) "192.168.1.0/30" "" "" 1 100 [] [] = inr s0
    /\ run (host := lab) MAX_WORKERS 1 100 two_hosts s0 = Some s
    /\ output_text s
       = opening_lines "192.168.1.0/30" "" "" 1 100
         ++ [ "[-] No Response: 192.168.1.2" +++ newline;
              "[+] Host Up: 192.168.1.1" +++ newline ]
         ++ closing_lines ["192.168.1.1"].
Proof.
  eexists. eexists.
  split; [vm_compute; reflexivity|].
  split; [vm_compute; reflexivity|].
  refine (eq_trans
            (log_of_a_scan (host := lab) "192.168.1.0/30" "" "" 1 100 [] []
               _ two_hosts _ _ _) _).
  - vm_compute. reflexivity.
  - vm_compute. reflexivity.
  - vm_compute. reflexivity.
Defined.

(** X10. Worker threads are started by submissions only: a scan never
    has more threads than candidates submitted so far, nor more than
    [MAX_WORKERS]; a scan of a few hosts starts a few threads. *)
Theorem threads_within_submissions {host : Host} :
  forall (subnet start_ip end_ip : string) (count timeout : Z)
         (o r : list string) (s0 : sweep_state)
         (events : list event) (s : sweep_state),
    start_sweep subnet start_ip end_ip count timeout o r = inr s0 ->
    run MAX_WORKERS count timeout events s0 = Some s ->
    (_threads s
     <= Nat.min MAX_WORKERS
          (List.length (to_submit s0) - List.length (to_submit s)))%nat.
Proof.
  intros subnet start_ip end_ip count timeout o r s0 events s H0 Hrun.
  destruct (scan_state _ _ _ _ _ _ _ _ _ _ H0 Hrun) as [Hs Ht].
  assert (Hb := bounded _ _ _ _ _ s Hs).
  assert (Hn := threads_started _ _ s Ht). lia.
Qed.

Lemma threads_within_submissions_witness :
  exists s0 s,
    start_sweep (host := lab) "192.168.1.0/30" "" "" 1 100 [] [] = inr s0
    /\ run (host := lab) MAX_WORKERS 1 100 two_hosts s0 = Some s
    /\ (_threads s <= 2)%nat.
Proof.
  eexists. eexists.
  split; [vm_compute; reflexivity|].
  split; [vm_compute; reflexivity|].
  refine (Nat.le_trans _ _ _
            (threads_within_submissions (host := lab)
               "192.168.1.0/30" "" "" 1 100 [] [] _ two_hosts _ _ _) _).
  - vm_compute. reflexivity.
  - vm_compute. reflexivity.
  - vm_compute. repeat constructor.
Defined.

(** X11. Candidates are handed to the workers in the order of the
    range: at every moment the candidates not yet started are the tail
    of the range, those queued first, and the candidates before them
    are in flight, finished or reported. *)
Theorem candidates_started_in_order {host : Host} :
  forall (subnet start_ip end_ip : string) (count timeout : Z)
         (o r : list string) (s0 : sweep_state)
         (events : list event) (s : sweep_state),
    start_sweep subnet start_ip end_ip count timeout o r = inr s0 ->
    run MAX_WORKERS count timeout events s0 = Some s ->
    exists started,
      to_submit s0 = started ++ _work_queue s ++ to_submit s
      /\ List.length started
         = (List.length (in_flight s) + List.length (finished s)
            + List.length (results s))%nat.
Proof.
  intros subnet start_ip end_ip count timeout o r s0 events s H0 Hrun.
  destruct (scan_state _ _ _ _ _ _ _ _ _ _ H0 Hrun) as [_ Ht].
  exact (in_order _ _ s Ht).
Qed.

Lemma candidates_started_in_order_witness :
  exists s0 s started,
    start_sweep (host := lab) "10.0.0.0/24" "10.0.0.1" "10.0.0.10"
      1 1000 [] [] = inr s0
    /\ run (host := lab) MAX_WORKERS 1 1000 three_of_ten s0 = Some s
    /\ to_submit s0 = started ++ _work_queue s ++ to_submit s
    /\ List.length started = 3%nat.
Proof.
  destruct (candidates_started_in_order (host := lab)
              "10.0.0.0/24" "10.0.0.1" "10.0.0.10" 1 1000 [] []
              {| to_submit :=
                   map (_address_class IPv4) (range 167772161 167772171);
                 _work_queue := []; in_flight := []; _threads := 0;
                 _idle_semaphore := 0; finished := []; results := [];
                 responsive_hosts := [];
                 output_text := opening_lines "10.0.0.0/24" "10.0.0.1"
                                  "10.0.0.10" 1 1000;
                 result_list := []; at_phase := Sweeping |}
              three_of_ten
              {| to_submit := [];
                 _work_queue :=
                   map (_address_class IPv4) (range 167772164 167772171);
                 in_flight := []; _threads := 10; _idle_semaphore := 3;
                 finished := [];
                 results := [("10.0.0.1", false); ("10.0.0.2", false);
                             ("10.0.0.3", true)];
                 responsive_hosts := ["10.0.0.3"];
                 output_text :=
                   opening_lines "10.0.0.0/24" "10.0.0.1" "10.0.0.10" 1 1000
                   ++ map result_line
                        [("10.0.0.1", false); ("10.0.0.2", false);
                         ("10.0.0.3", true)];
                 result_list := []; at_phase := Sweeping |})
    as (started & Hc & Hl).
  - vm_compute. reflexivity.
  - vm_compute. reflexivity.
  - eexists. eexists. exists started.
    split; [vm_compute; reflexivity|].
    split; [vm_compute; reflexivity|].
    split; [exact Hc|exact Hl].
Defined.

Section EventCounts.

Context {host : Host}.

Variable max_workers : nat.
Variables count timeout : Z.

Lemma step_counts e s s' :
  step max_workers count timeout e s = Some s' ->
  (one_if (is_submit e) + List.length (to_submit s')
   = List.length (to_submit s))%nat
  /\ (one_if (is_get e) + List.length (to_submit s')
      + List.length (_work_queue s')
      = List.length (to_submit s) + List.length (_work_queue s))%nat
  /\ (one_if (is_done e) + List.length (to_submit s')
      + List.length (_work_queue s') + List.length (in_flight s')
      = List.length (to_submit s) + List.length (_work_queue s)
        + List.length (in_flight s))%nat
  /\ (one_if (is_yield e) + List.length (to_submit s')
      + List.length (_work_queue s') + List.length (in_flight s')
      + List.length (finished s')
      = List.length (to_submit s) + List.length (_work_queue s)
        + List.length (in_flight s) + List.length (finished s))%nat
  /\ (one_if (is_exit e) + one_if (complete (at_phase s))
      = one_if (complete (at_phase s')))%nat.
Proof.
  intros H. destruct e; cbn [step] in H.
  - destruct (to_submit s) as [|ip rest] eqn:Et; [discriminate|].
    destruct (at_phase s) eqn:Ep; try discriminate. cbn [sweeping] in H.
    destruct (_adjust_thread_count _ _ _) as [sem threads].
    injection H as <-. state_fields. rewrite length_app. cbn. lia.
  - destruct (_work_queue s) as [|ip queue] eqn:Eq; [discriminate|].
    destruct (_ <? _)%nat; [|discriminate].
    injection H as <-. state_fields. rewrite length_app. cbn. lia.
  - destruct (nth_error (in_flight s) k) as [ip|] eqn:Ek; [|discriminate].
    injection H as <-. state_fields.
    rewrite length_app, (remove_nth_length k _ _ Ek). cbn. lia.
  - destruct (at_phase s) eqn:Ep; try discriminate. cbn [sweeping] in H.
    destruct (is_nil (to_submit s)); [|discriminate]. cbn [andb] in H.
    destruct (nth_error (finished s) k) as [[[ip is_up]|]|] eqn:Ek;
      [| |discriminate]; injection H as <-; state_fields;
      rewrite (remove_nth_length k _ _ Ek); cbn; lia.
  - destruct (at_phase s) eqn:Ep; try discriminate. cbn [sweeping] in H.
    destruct (_ && _ && _ && _); [|discriminate]. cbn [andb] in H.
    injection H as <-. state_fields. cbn. lia.
Qed.

Lemma count_events_cons kind e events :
  count_events kind (e :: events)
  = (one_if (kind e) + count_events kind events)%nat.
Proof. unfold count_events. cbn. destruct (kind e); reflexivity. Qed.

Lemma run_counts events s s' :
  run max_workers count timeout events s = Some s' ->
  (count_events is_submit events + List.length (to_submit s')
   = List.length (to_submit s))%nat
  /\ (count_events is_get events + List.length (to_submit s')
      + List.length (_work_queue s')
      = List.length (to_submit s) + List.length (_work_queue s))%nat
  /\ (count_events is_done events + List.length (to_submit s')
      + List.length (_work_queue s') + List.length (in_flight s')
      = List.length (to_submit s) + List.length (_work_queue s)
        + List.length (in_flight s))%nat
  /\ (count_events is_yield events + List.length (to_submit s')
      + List.length (_work_queue s') + List.length (in_flight s')
      + List.length (finished s')
      = List.length (to_submit s) + List.length (_work_queue s)
        + List.length (in_flight s) + List.length (finished s))%nat
  /\ (count_events is_exit events + one_if (complete (at_phase s))
      = one_if (complete (at_phase s')))%nat.
Proof.
  revert s. induction events as [|e events IH]; intros s H; cbn [run] in H.
  - injection H as <-. unfold count_events. cbn. lia.
  - destruct (step max_workers count timeout e s) as [s1|] eqn:E;
      [|discriminate].
    apply step_counts in E. apply IH in H.
    rewrite !count_events_cons. lia.
Qed.

End EventCounts.

Lemma length_by_kind (events : list event) :
  List.length events
  = (count_events is_submit events + count_events is_get events
     + count_events is_done events + count_events is_yield events
     + count_events is_exit events)%nat.
Proof.
  induction events as [|e events IH]; [reflexivity|].
  rewrite !count_events_cons. cbn [List.length]. rewrite IH.
  destruct e; cbn; lia.
Qed.

(** X12. In a scan that has come to its end every candidate was
    submitted once, started once, finished once and handled once by the
    loop: no candidate is probed twice and none is left out. *)
Theorem each_candidate_probed_once {host : Host} :
  forall (subnet start_ip end_ip : string) (count timeout : Z)
         (o r : list string) (s0 : sweep_state)
         (events : list event) (s : sweep_state),
    start_sweep subnet start_ip end_ip count timeout o r = inr s0 ->
    run MAX_WORKERS count timeout events s0 = Some s ->
    at_phase s = Complete ->
    count_events is_submit events = List.length (to_submit s0)
    /\ count_events is_get events = List.length (to_submit s0)
    /\ count_events is_done events = List.length (to_submit s0)
    /\ count_events is_yield events = List.length (to_submit s0)
    /\ count_events is_exit events = 1%nat
    /\ List.length events = (4 * List.length (to_submit s0) + 1)%nat.
Proof.
  intros subnet start_ip end_ip count timeout o r s0 events s H0 Hrun Ep.
  destruct (scan_state _ _ _ _ _ _ _ _ _ _ H0 Hrun) as [Hs _].
  assert (Hph := phased _ _ _ _ _ s Hs). rewrite Ep in Hph.
  destruct Hph as (_ & Ht & Hq & Hi & Hf).
  assert (Hc := run_counts _ _ _ _ _ _ Hrun).
  rewrite Ht, Hq, Hi, Hf, Ep in Hc.
  assert (Hs0 : _work_queue s0 = [] /\ in_flight s0 = [] /\ finished s0 = []
                /\ at_phase s0 = Sweeping).
  { unfold start_sweep in H0.
    destruct (ip_range subnet start_ip end_ip); [discriminate|].
    injection H0 as <-. repeat split. }
  destruct Hs0 as (Eq & Ei & Ef & Ep0).
  rewrite Eq, Ei, Ef, Ep0 in Hc. cbn in Hc.
  rewrite (length_by_kind events). lia.
Qed.

Lemma each_candidate_probed_once_witness :
  exists s0 s,
    start_sweep (host := lab) "192.168.1.0/30" "" "" 1 100 [] [] = inr s0
    /\ run (host := lab) MAX_WORKERS 1 100 two_hosts s0 = Some s
    /\ count_events is_get two_hosts = 2%nat.
Proof.
  eexists. eexists.
  split; [vm_compute; reflexivity|].
  split; [vm_compute; reflexivity|].
  refine (eq_trans
            (proj1 (proj2 (each_candidate_probed_once (host := lab)
                      "192.168.1.0/30" "" "" 1 100 [] [] _ two_hosts _ _ _ _)))
            _).
  - vm_compute. reflexivity.
  - vm_compute. reflexivity.
  - vm_compute. reflexivity.
  - vm_compute. reflexivity.
Defined.

(** ** Export *)

Lemma append_nil_r (s : string) : s +++ "" = s.
Proof. induction s as [|c s IH]; cbn; [|rewrite IH]; reflexivity. Qed.

Lemma append_assoc (s t u : string) : (s +++ t) +++ u = s +++ (t +++ u).
Proof. induction s as [|c s IH]; cbn; [|rewrite IH]; reflexivity. Qed.

Lemma concat_empty_cons (x : string) (l : list string) :
  String.concat "" (x :: l) = x +++ String.concat "" l.
Proof. destruct l; cbn; [rewrite append_nil_r|]; reflexivity. Qed.

Lemma split_line (h rest : string) :
  one_line h = true ->
  split_lines (h +++ newline +++ rest) = h :: split_lines rest.
Proof.
  unfold split_lines, newline. induction h as [|c h IH]; intros H.
  - cbn. reflexivity.
  - cbn [one_line] in H. apply andb_true_iff in H. destruct H as [Hc Hh].
    apply negb_true_iff in Hc.
    cbn [String.append ExampleHost.split]. rewrite Hc.
    cbn [String.append] in IH. rewrite (IH Hh). reflexivity.
Qed.

Lemma split_written_lines (results : list string) :
  forallb one_line results = true ->
  split_lines (String.concat "" (map (fun host => host +++ newline) results))
  = results ++ [""].
Proof.
  induction results as [|h results IH]; intros H; [reflexivity|].
  cbn in H. apply andb_true_iff in H. destruct H as [Hh Hr].
  cbn [map]. rewrite concat_empty_cons, append_assoc, (split_line _ _ Hh).
  rewrite (IH Hr). reflexivity.
Qed.


(** X13. [export_results] writes a file only when there is a result, a
    path was chosen and the writing worked; the file then holds one
    line per result and nothing else: split at the line breaks it gives
    back the results, in order, followed by one empty text. *)
Theorem export_writes_one_line_per_result {desktop : Desktop} :
  forall (results : list string),
    (saved (export_results results) <> None <->
     results <> [] /\ nonempty asksaveasfilename = true
     /\ write_file asksaveasfilename
          (map (fun host => host +++ newline) results) = None)
    /\ forall path text,
         saved (export_results results) = Some (path, text) ->
         path = asksaveasfilename
         /\ (forallb one_line results = true ->
             split_lines text = results ++ [""]).
Proof.
  intros results. unfold export_results.
  destruct results as [|h results]; cbn [is_nil].
  - split.
    + cbn. split; [congruence|]. intros (H & _). congruence.
    + cbn. discriminate.
  - destruct (nonempty asksaveasfilename).
    + destruct (write_file asksaveasfilename _) as [e|] eqn:Ew.
      * split.
        -- cbn. split; [congruence|]. intros (_ & _ & H). discriminate.
        -- cbn. discriminate.
      * split.
        -- cbn. split; [intros _|discriminate].
           repeat split. discriminate.
        -- cbn [saved]. intros path text H. injection H as <- <-.
           split; [reflexivity|]. apply split_written_lines.
    + split.
      * cbn. split; [congruence|]. intros (_ & H & _). discriminate.
      * cbn. discriminate.
Qed.

Lemma export_writes_one_line_per_result_witness :
  exists path text,
    saved (export_results (desktop := office) ["192.168.1.1"; "10.0.0.3"])
    = Some (path, text)
    /\ split_lines text = ["192.168.1.1"; "10.0.0.3"; ""].
Proof.
  eexists. eexists. split; [vm_compute; reflexivity|].
  refine (proj2 (proj2 (export_writes_one_line_per_result (desktop := office)
                          ["192.168.1.1"; "10.0.0.3"]) _ _ _) _).
  - vm_compute. reflexivity.
  - vm_compute. reflexivity.
Defined.


